(** * PiZeroMosquitto: the relay controller of [src/main.c]

    A shallow embedding of the MQTT-to-GPIO bridge: the message callback
    [on_message], the settings reader [readSettings] with the C string
    routines it relies on, [gpioSetup] and the start-up sequence of [main].
    Calls into the collaborators (console, wiringPi, mosquitto) are recorded
    as a chronological trace of events. *)

From Stdlib Require Import ZArith Ascii String Bool Arith Lia List.
From Equations Require Import Equations.
Import ListNotations.

Set Implicit Arguments.

(** ** Collaborator interface *)

(** Modelled from the spec: the wiringPi.h macros [HIGH] and [LOW], the two
    logic levels accepted by [digitalWrite], and the pin modes accepted by
    [pinMode] (the header is not part of the repository). *)
Inductive level : Type := LOW | HIGH.
Inductive pin_mode : Type := INPUT | OUTPUT.

(** Arguments handed to a printf-style call. *)
Inductive arg : Type :=
| ArgInt (z : Z)
| ArgStr (s : list ascii)
| ArgErr (rc : Z).                       (* mosquitto_strerror(rc) *)

Inductive callback : Type := CbConnect | CbSubscribe | CbMessage.

(** One constructor per external call made by the program.  Format strings
    are kept as they are spelled in the C source. *)
Inductive event : Type :=
| Printf (fmt : string) (args : list arg)
| FprintfStderr (fmt : string) (args : list arg)
| WiringPiSetup
| PinMode (pin : Z) (m : pin_mode)
| DigitalWrite (pin : Z) (value : level)
| MosquittoLibInit
| MosquittoNew
| MosquittoCallbackSet (cb : callback)
| MosquittoConnect (host : list ascii) (port keepalive : Z)
| MosquittoDestroy
| MosquittoLoopForever
| MosquittoLibCleanup.

(** The pin writes of a trace, in order. *)
Fixpoint pin_writes (t : list event) : list (Z * level) :=
  match t with
  | [] => []
  | DigitalWrite p v :: t' => (p, v) :: pin_writes t'
  | _ :: t' => pin_writes t'
  end.

(** ** The message callback *)

Section Callbacks.

Local Open Scope Z_scope.

(** Whether plain [char] is a signed type on the target (it decides how
    the payload bytes are printed with [%d]). *)
Variable char_is_signed : bool.

(** A payload byte read through a [char *] and promoted to [int]. *)
Definition char_to_int (b : Z) : Z :=
  if char_is_signed && (128 <=? b) then b - 256 else b.

(** The values a payload byte can take. *)
Definition is_byte (b : Z) : Prop := 0 <= b < 256.

(** Arithmetic on [uint8_t] wraps modulo 256. *)
Definition uint8 (z : Z) : Z := z mod 256.

(** Store [v] at index [i] of a buffer (no effect out of range; the
    callback only stores at index 0 of a two-byte payload). *)
Fixpoint store (i : nat) (v : Z) (buf : list Z) : list Z :=
  match buf, i with
  | [], _ => []
  | _ :: buf', O => v :: buf'
  | b :: buf', S i' => b :: store i' v buf'
  end.

(** [on_message]: the payload is a byte buffer (every byte in [0,256)),
    [msg->payloadlen] is its length.  The result is the buffer as the
    callback leaves it and the events it issued. *)
Definition on_message (payload : list Z) : list Z * list event :=
  let payloadlen := Z.of_nat (length payload) in
  (* display values received to console *)
  let console :=
    map (fun b => Printf "[%d] " [ArgInt (char_to_int b)]) payload
        ++ [Printf "\n" []] in
  (* check length of payload *)
  if payloadlen =? 2 then
    let pin := nth 0 payload 0 in
    (* check relay number in range *)
    if (0 <? pin) && (pin <=? 16) then
      (* use pins 0 - 15 *)
      let payload' := store 0 (uint8 (pin - 1)) payload in
      (* second byte is state *)
      let lvl := nth 1 payload' 0 in
      let value := if lvl =? 0 then HIGH else LOW in
      (payload', console ++ [DigitalWrite (nth 0 payload' 0) value])
    else (payload, console)
  else (payload, console).

End Callbacks.

(** ** C strings and the libc routines used by the settings reader *)

(** Text is a list of characters; a literal is written [str "..."]. *)
Definition str (s : string) : list ascii := list_ascii_of_string s.

Definition BUFFSIZE : nat := 50.

Definition NUL : ascii := "000"%char.
Definition LF : ascii := "010"%char.

(** The C string held by a buffer: its characters up to the first NUL. *)
Fixpoint c_str (buf : list ascii) : list ascii :=
  match buf with
  | [] => []
  | c :: buf' => if Ascii.eqb c NUL then [] else c :: c_str buf'
  end.

Definition strlen (buf : list ascii) : nat := length (c_str buf).

(** [strcmp(a, b) == 0]. *)
Fixpoint streq (a b : list ascii) : bool :=
  match a, b with
  | [], [] => true
  | x :: a', y :: b' => Ascii.eqb x y && streq a' b'
  | _, _ => false
  end.

(** [toupper] in the "C" locale (the program never calls setlocale):
    a to z are mapped to A to Z, every other character is left alone. *)
Definition toupper (c : ascii) : ascii :=
  let n := N_of_ascii c in
  if ((97 <=? n) && (n <=? 122))%N then ascii_of_N (n - 32) else c.

(** [strrchr(s, c) - s]: the index of the last occurrence of [c]. *)
Fixpoint strrchr (s : list ascii) (c : ascii) : option nat :=
  match s with
  | [] => None
  | x :: s' =>
      match strrchr s' c with
      | Some i => Some (S i)
      | None => if Ascii.eqb x c then Some 0 else None
      end
  end.

(** [strncpy(dst, src, n)] seen through the C strings involved, for a
    destination whose bytes after its terminator are all zero (true of
    [g_WorkingDir], which starts zeroed and is written by nothing else):
    the first [n] characters are overwritten, no terminator is added when
    [src] is longer than [n]. *)
Definition strncpy (dst src : list ascii) (n : nat) : list ascii :=
  if n <=? length src then firstn n src ++ skipn n dst else src.

(** [strtok]: the saved position is returned next to the token, and a
    later [strtok(NULL, delim)] is [strtok] applied to that position. *)
Definition is_delim (delim : list ascii) (c : ascii) : bool :=
  existsb (Ascii.eqb c) delim.

Fixpoint skip_delims (delim s : list ascii) : list ascii :=
  match s with
  | [] => []
  | c :: s' => if is_delim delim c then skip_delims delim s' else s
  end.

Fixpoint scan_token (delim s : list ascii) : list ascii * list ascii :=
  match s with
  | [] => ([], [])
  | c :: s' =>
      if is_delim delim c then ([], s')
      else let (tok, saved) := scan_token delim s' in (c :: tok, saved)
  end.

Definition strtok (s delim : list ascii) : option (list ascii * list ascii) :=
  match skip_delims delim s with
  | [] => None
  | s' => Some (scan_token delim s')
  end.

(** [fgets(buffer, n, fp)]: at most [n - 1] characters, stopping after a
    line feed; NULL at end of file.  The stream is the unread rest of the
    file; the result is the characters stored and the new unread rest. *)
Fixpoint fgets_chars (k : nat) (stream : list ascii)
  : list ascii * list ascii :=
  match k, stream with
  | O, _ => ([], stream)
  | _, [] => ([], [])
  | S k', c :: stream' =>
      if Ascii.eqb c LF then ([c], stream')
      else let (l, r) := fgets_chars k' stream' in (c :: l, r)
  end.

Definition fgets (n : nat) (stream : list ascii)
  : option (list ascii * list ascii) :=
  match stream with
  | [] => None
  | _ => Some (fgets_chars (n - 1) stream)
  end.

(** ** Program state and the monad of the program *)

(** The file-scope buffers (as C strings) and the trace of external calls
    made so far. *)
Record state : Type := mkState {
  g_Topic : list ascii;
  g_Broker : list ascii;
  g_WorkingDir : list ascii;
  trace : list event
}.

(** The buffers are zero-initialised. *)
Definition initial_state : state :=
  {| g_Topic := []; g_Broker := []; g_WorkingDir := []; trace := [] |}.

Definition g_Title : list ascii := str "Pi Zero Relay Controller".

(** A run either finishes with a value or leaves defined C behaviour
    (a store outside a buffer, a NULL dereference). *)
Inductive result (A : Type) : Type :=
| Ok (a : A)
| Undefined.
Arguments Undefined {A}.

Definition M (A : Type) : Type := state -> result (A * state).

Definition ret {A} (a : A) : M A := fun st => Ok (a, st).

Definition bind {A B} (m : M A) (k : A -> M B) : M B :=
  fun st =>
    match m st with
    | Ok (a, st') => k a st'
    | Undefined => Undefined
    end.

Notation "'do' x <- m ; k" := (bind m (fun x => k))
  (at level 10, x name, m at level 100, k at level 200).
Notation "'exec' m ; k" := (bind m (fun _ => k))
  (at level 10, m at level 100, k at level 200).

Definition undefined {A} : M A := fun _ => Undefined.
Definition gets {A} (f : state -> A) : M A := fun st => Ok (f st, st).
Definition emit (e : event) : M unit :=
  fun st => Ok (tt, {| g_Topic := g_Topic st; g_Broker := g_Broker st;
                       g_WorkingDir := g_WorkingDir st;
                       trace := trace st ++ [e] |}).

Definition set_Topic (v : list ascii) (st : state) : state :=
  {| g_Topic := v; g_Broker := g_Broker st;
     g_WorkingDir := g_WorkingDir st; trace := trace st |}.
Definition set_Broker (v : list ascii) (st : state) : state :=
  {| g_Topic := g_Topic st; g_Broker := v;
     g_WorkingDir := g_WorkingDir st; trace := trace st |}.
Definition set_WorkingDir (v : list ascii) (st : state) : state :=
  {| g_Topic := g_Topic st; g_Broker := g_Broker st;
     g_WorkingDir := v; trace := trace st |}.

(** [strcpy] into one of the [BUFFSIZE]-byte buffers: the string and its
    terminator must fit. *)
Definition strcpy_into (setter : list ascii -> state -> state)
    (src : list ascii) : M unit :=
  fun st => if length src <? BUFFSIZE then Ok (tt, setter src st)
            else Undefined.

(** ** What the environment decides *)

Record world : Type := mkWorld {
  argv0 : list ascii;                               (* argv[0] *)
  fopen : list ascii -> option (list ascii);        (* contents, if it opens *)
  wiringPiSetup_rc : Z;                             (* wiringPiSetup() *)
  mosquitto_new_ok : bool;                          (* mosquitto_new() != NULL *)
  mosquitto_connect_rc : Z                          (* mosquitto_connect() *)
}.

(** A world for examples: the program is started as [/home/pi/relay], the
    only file that may exist is [/home/pi/settings.dat]. *)
Definition sample_world (settings : option (list ascii)) (setup_rc : Z)
  : world :=
  {| argv0 := str "/home/pi/relay";
     fopen := fun name =>
                if streq name (str "/home/pi/settings.dat") then settings
                else None;
     wiringPiSetup_rc := setup_rc;
     mosquitto_new_ok := true;
     mosquitto_connect_rc := 0 |}.

(** ** Settings *)

(** [displaySettings] *)
Definition displaySettings : M unit :=
  do topic <- gets g_Topic ;
  exec emit (Printf "TOPIC: %s\n" [ArgStr topic]) ;
  do broker <- gets g_Broker ;
  emit (Printf "BROKER: %s\n\n" [ArgStr broker]).

(** The body of the [while] loop of [readSettings] from the test
    [strlen(buffer) > 0] on, for the line left in [buffer]. *)
Definition apply_line (line : list ascii) : M unit :=
  if 0 <? strlen line then
    (* ignore lines staring with # *)
    if negb (Ascii.eqb (hd NUL line) "#") then
      match strtok line (str " ") with
      | None => undefined               (* strlen(NULL) *)
      | Some (tok, saved) =>
          (* make label upper case *)
          let label := map toupper tok in
          if streq label (str "TOPIC") then
            match strtok saved (str " ") with
            | Some (value, _) => strcpy_into set_Topic value
            | None => ret tt
            end
          else if streq label (str "BROKER") then
            match strtok saved (str " ") with
            | Some (value, _) => strcpy_into set_Broker value
            | None => ret tt
            end
          else ret tt
      end
    else ret tt
  else ret tt.

(** The whole body of the loop, for the characters [fgets] stored in
    [buffer]: the last character of the string is cut off first. *)
Definition process_line (buffer : list ascii) : M unit :=
  (* remove line feed and terminate: pos = strlen(buffer) - 1 *)
  match c_str buffer with
  | [] => undefined                     (* buffer[-1] = 0 *)
  | c :: cs => apply_line (removelast (c :: cs))
  end.

(** A value together with the equation that names it. *)
Definition inspect {A} (a : A) : {b : A | a = b} := exist _ a eq_refl.

(** [while (fgets(buffer, BUFFSIZE, fp) != NULL) { ... }] *)
Equations? read_lines (stream : list ascii) (st : state)
  : result (unit * state) by wf (length stream) lt :=
  read_lines stream st with inspect (fgets BUFFSIZE stream) := {
    | exist _ None _ => Ok (tt, st);
    | exist _ (Some (buffer, rest)) Hread with process_line buffer st := {
        | Undefined => Undefined;
        | Ok (_, st') => read_lines rest st' } }.
Proof.
  assert (Hle : forall k s, length (snd (fgets_chars k s)) <= length s).
  { induction k as [|k IH]; intros [|c s]; simpl; auto.
    destruct (Ascii.eqb c LF); simpl; auto.
    specialize (IH s). destruct (fgets_chars k s); simpl in *; lia. }
  assert (Hlt : forall k c s, length (snd (fgets_chars (S k) (c :: s)))
                               < length (c :: s)).
  { intros k c s. specialize (Hle k s). simpl.
    destruct (Ascii.eqb c LF); simpl; [lia|].
    destruct (fgets_chars k s); simpl in *; lia. }
  destruct stream as [|c s]; [discriminate|].
  assert (E : fgets_chars (S 48) (c :: s) = (buffer, rest)).
  { apply (f_equal (fun o => match o with
                             | Some x => x
                             | None => (buffer, rest)
                             end)) in Hread.
    exact Hread. }
  specialize (Hlt 48 c s). rewrite E in Hlt. exact Hlt.
Qed.

Section Program.

Variable w : world.

(** [readSettings] *)
Definition readSettings : M bool :=
  (* build full filename path *)
  do dir <- gets g_WorkingDir ;
  let filename := dir ++ str "settings.dat" in
  if BUFFSIZE <=? length filename then undefined   (* strcpy; strcat *)
  else
    (* open file *)
    match fopen w filename with
    | None =>
        (* set defaults if open fails *)
        exec emit (Printf "Unable to open file: %s, using defaults.\n\n"
                          [ArgStr filename]) ;
        exec strcpy_into set_Topic (str "relays") ;
        exec strcpy_into set_Broker (str "192.168.0.1") ;
        exec displaySettings ;
        ret false
    | Some stream =>
        exec read_lines stream ;
        exec displaySettings ;
        ret true
    end.

(** [displayHeader] *)
Definition displayHeader : M unit :=
  let len := length g_Title + 4 in
  if BUFFSIZE <=? len then undefined               (* buffer[len] = 0 *)
  else
    exec emit (Printf "%s\n" [ArgStr (repeat "#"%char len)]) ;
    exec emit (Printf "%s\n" [ArgStr (str "# " ++ g_Title ++ str " #")]) ;
    emit (Printf "%s\n\n" [ArgStr (repeat "#"%char len)]).

(** [parseWorkingDir] *)
Definition parseWorkingDir (path : list ascii) : M unit :=
  (* copy exe path to local buffer *)
  if BUFFSIZE <=? length path then undefined       (* strcpy *)
  else
    (* find last occurence of / *)
    match strrchr path "/" with
    | Some len =>
        (* if found, copy all before it to get path *)
        fun st =>
          Ok (tt, set_WorkingDir
                    (strncpy (g_WorkingDir st) path (len + 1)) st)
    | None => ret tt
    end.

(** [gpioSetup]: all pins initially set high (relays off). *)
Definition gpioSetup : M unit :=
  exec emit WiringPiSetup ;
  if (wiringPiSetup_rc w =? 0)%Z then
    fold_right
      (fun i rest =>
         exec emit (PinMode (Z.of_nat i) OUTPUT) ;
         exec emit (DigitalWrite (Z.of_nat i) HIGH) ;
         rest)
      (ret tt) (seq 0 16)
  else ret tt.

(** [main], up to and including the blocking network loop; the value is
    the exit status.  The loop is one event of the trace: what the
    registered callbacks call while it runs is not recorded here. *)
Definition main : M Z :=
  (* get current directory to open settings file *)
  exec parseWorkingDir (argv0 w) ;
  exec displayHeader ;
  (* read settings file *)
  exec readSettings ;
  (* setup GPIO pins *)
  exec gpioSetup ;
  exec emit MosquittoLibInit ;
  exec emit MosquittoNew ;
  if negb (mosquitto_new_ok w) then
    exec emit (FprintfStderr "Error: Out of memory.\n" []) ;
    ret 1%Z
  else
    exec emit (MosquittoCallbackSet CbConnect) ;
    exec emit (MosquittoCallbackSet CbSubscribe) ;
    exec emit (MosquittoCallbackSet CbMessage) ;
    do broker <- gets g_Broker ;
    exec emit (MosquittoConnect broker 1883 60) ;
    if negb (mosquitto_connect_rc w =? 0)%Z then
      exec emit MosquittoDestroy ;
      exec emit (FprintfStderr "Error: %s\n"
                               [ArgErr (mosquitto_connect_rc w)]) ;
      ret 1%Z
    else
      exec emit MosquittoLoopForever ;
      exec emit MosquittoLibCleanup ;
      ret 0%Z.

End Program.

(** The resolved configuration: broker address and topic name. *)
Definition session_config (st : state) : list ascii * list ascii :=
  (g_Broker st, g_Topic st).

(** Text whose last character is a line feed. *)
Definition ends_with_LF (s : list ascii) : Prop := exists p, s = p ++ [LF].

(** Lines that name no value: blank, a comment, or a single word with
    spaces around it. *)
Inductive valueless_line : list ascii -> Prop :=
| vl_blank : valueless_line []
| vl_comment (body : list ascii) : valueless_line ("#"%char :: body)
| vl_label (lead tok pad : list ascii) :
    Forall (eq " "%char) lead ->
    Forall (eq " "%char) pad ->
    tok <> [] ->
    Forall (fun c => c <> " "%char /\ c <> NUL) tok ->
    valueless_line (lead ++ tok ++ pad).

(** A recognised label followed by one space, and the buffer it names. *)
Definition label_text (topic : bool) : list ascii :=
  if topic then str "TOPIC " else str "BROKER ".

Definition field (topic : bool) (st : state) : list ascii :=
  if topic then g_Topic st else g_Broker st.

(** The file name [readSettings] builds in [filename]. *)
Definition settings_path (st : state) : list ascii :=
  g_WorkingDir st ++ str "settings.dat".

(** What a run of the settings loop can do to the buffers: store a new
    topic, a new broker, both or neither. *)
Definition override (topic broker : option (list ascii)) (st : state)
  : state :=
  {| g_Topic := match topic with Some v => v | None => g_Topic st end;
     g_Broker := match broker with Some v => v | None => g_Broker st end;
     g_WorkingDir := g_WorkingDir st;
     trace := trace st |}.

(** The outcome of a run as far as the configuration is concerned. *)
Definition resolved {A} (r : result (A * state))
  : option (A * (list ascii * list ascii)) :=
  match r with
  | Ok (a, st) => Some (a, session_config st)
  | Undefined => None
  end.

(** ** The specification's reading of the message protocol *)

(** These definitions follow the specification's sections 3, 4.2 and 4.3
    (not the code); the theorems below compare [on_message] with them. *)
Module Spec.

Local Open Scope Z_scope.

Inductive DecodeFailure : Type := InvalidLength | ChannelOutOfRange.

Record RelayCommand : Type := mkCommand {
  channel : Z;
  desiredState : bool
}.

Definition decode (payload : list Z) : RelayCommand + DecodeFailure :=
  if negb (length payload =? 2)%nat then inr InvalidLength
  else
    let byte0 := nth 0 payload 0 in
    let byte1 := nth 1 payload 0 in
    if (byte0 =? 0) || (16 <? byte0) then inr ChannelOutOfRange
    else inl {| channel := byte0; desiredState := negb (byte1 =? 0) |}.

Definition pinIndex (command : RelayCommand) : Z := channel command - 1.

(** [apply]: the single write issued for a command. *)
Definition apply (command : RelayCommand) : Z * level :=
  (pinIndex command, if desiredState command then LOW else HIGH).

(** Section 4.4: decode, then apply on success, drop on failure. *)
Definition handle (payload : list Z) : list (Z * level) :=
  match decode payload with
  | inl command => [apply command]
  | inr _ => []
  end.

(** Section 4.1: the built-in defaults. *)
Definition default_topic : list ascii := str "relays".
Definition default_broker : list ascii := str "192.168.0.1".

End Spec.

(** ** Pin state along a trace *)

(** The level last written to [pin] in trace [t], if any. *)
Fixpoint last_level (pin : Z) (t : list event) : option level :=
  match t with
  | [] => None
  | e :: t' =>
      match last_level pin t' with
      | Some v => Some v
      | None =>
          match e with
          | DigitalWrite p v => if (p =? pin)%Z then Some v else None
          | _ => None
          end
      end
  end.

(** The mode last configured for [pin] in trace [t], if any. *)
Fixpoint last_mode (pin : Z) (t : list event) : option pin_mode :=
  match t with
  | [] => None
  | e :: t' =>
      match last_mode pin t' with
      | Some m => Some m
      | None =>
          match e with
          | PinMode p m => if (p =? pin)%Z then Some m else None
          | _ => None
          end
      end
  end.

Definition is_connect (e : event) : bool :=
  match e with MosquittoConnect _ _ _ => true | _ => false end.

(** Calls into the mosquitto library, from [mosquitto_lib_init] on. *)
Definition is_transport (e : event) : bool :=
  match e with
  | MosquittoLibInit | MosquittoNew | MosquittoCallbackSet _
  | MosquittoConnect _ _ _ | MosquittoDestroy | MosquittoLoopForever
  | MosquittoLibCleanup => true
  | _ => false
  end.

Definition is_console (e : event) : bool :=
  match e with Printf _ _ => true | _ => false end.

(** The events of a successful [gpioSetup] after [wiringPiSetup]. *)
Definition gpio_events : list event :=
  flat_map (fun i => [PinMode (Z.of_nat i) OUTPUT;
                      DigitalWrite (Z.of_nat i) HIGH]) (seq 0 16).

(** The events of [main] from [gpioSetup] on, and its exit status. *)
Definition startup_events (w : world) (broker : list ascii) : list event :=
  WiringPiSetup ::
  (if (wiringPiSetup_rc w =? 0)%Z then gpio_events else []) ++
  MosquittoLibInit :: MosquittoNew ::
  (if mosquitto_new_ok w then
     MosquittoCallbackSet CbConnect :: MosquittoCallbackSet CbSubscribe ::
     MosquittoCallbackSet CbMessage :: MosquittoConnect broker 1883 60 ::
     (if (mosquitto_connect_rc w =? 0)%Z
      then [MosquittoLoopForever; MosquittoLibCleanup]
      else [MosquittoDestroy;
            FprintfStderr "Error: %s\n" [ArgErr (mosquitto_connect_rc w)]])
   else [FprintfStderr "Error: Out of memory.\n" []]).

Definition exit_status (w : world) : Z :=
  if mosquitto_new_ok w && (mosquitto_connect_rc w =? 0)%Z then 0%Z else 1%Z.

Definition add_trace (t : list event) (st : state) : state :=
  {| g_Topic := g_Topic st; g_Broker := g_Broker st;
     g_WorkingDir := g_WorkingDir st; trace := trace st ++ t |}.

(** All 16 pins are outputs and were last driven HIGH in trace [t]. *)
Definition pins_ready (t : list event) : bool :=
  forallb (fun i =>
             match last_mode (Z.of_nat i) t, last_level (Z.of_nat i) t with
             | Some OUTPUT, Some HIGH => true
             | _, _ => false
             end) (seq 0 16).

(** Every call into the mosquitto library in [t] happens with the pins
    ready, [pre] being the events before [t]. *)
Fixpoint transport_guarded (pre t : list event) : bool :=
  match t with
  | [] => true
  | e :: t' =>
      (if is_transport e then pins_ready pre else true)
      && transport_guarded (pre ++ [e]) t'
  end.

(** The console lines [on_message] prints for a payload. *)
Definition payload_log (cs : bool) (payload : list Z) : list event :=
  map (fun b => Printf "[%d] " [ArgInt (char_to_int cs b)]) payload
      ++ [Printf "\n" []].

(** ** The session callbacks *)

(** Arguments printed by [on_connect] and [on_subscribe]. *)
Inductive session_arg : Type :=
| SInt (z : Z)
| SConnack (reason_code : Z)            (* mosquitto_connack_string(..) *)
| SStrerror (rc : Z).                   (* mosquitto_strerror(..) *)

(** The external calls made by the two callbacks. *)
Inductive session_event : Type :=
| SessionPrintf (fmt : string) (args : list session_arg)
| SessionFprintfStderr (fmt : string) (args : list session_arg)
| MosquittoSubscribe (sub : list ascii) (qos : Z)
| MosquittoDisconnect.

Definition is_disconnect (e : session_event) : bool :=
  match e with MosquittoDisconnect => true | _ => false end.

Definition is_subscribe (e : session_event) : bool :=
  match e with MosquittoSubscribe _ _ => true | _ => false end.

Section SessionCallbacks.

(** The success code of mosquitto.h, which is not part of the repository. *)
Variable MOSQ_ERR_SUCCESS : Z.

(** [on_connect]: [subscribe_rc] is what [mosquitto_subscribe] returns. *)
Definition on_connect (reason_code subscribe_rc : Z) (st : state)
  : list session_event :=
  [SessionPrintf "on_connect: %s\n" [SConnack reason_code]]
  ++ (if negb (reason_code =? 0)%Z then [MosquittoDisconnect] else [])
  ++ [MosquittoSubscribe (g_Topic st) 1]
  ++ (if negb (subscribe_rc =? MOSQ_ERR_SUCCESS)%Z
      then [SessionFprintfStderr "Error subscribing: %s\n"
                                 [SStrerror subscribe_rc];
            MosquittoDisconnect]
      else []).

End SessionCallbacks.

(** The [for] loop of [on_subscribe] from index [i] on: the lines printed
    and the final value of [have_subscription]. *)
Fixpoint on_subscribe_loop (i : Z) (granted_qos : list Z)
    (have_subscription : bool) : list session_event * bool :=
  match granted_qos with
  | [] => ([], have_subscription)
  | q :: rest =>
      let (out, have) :=
        on_subscribe_loop (i + 1) rest
          (if (q <=? 2)%Z then true else have_subscription) in
      (SessionPrintf "on_subscribe: %d:granted qos = %d\n" [SInt i; SInt q]
         :: out, have)
  end.

(** [on_subscribe]: [granted_qos] holds the [qos_count] entries. *)
Definition on_subscribe (granted_qos : list Z) : list session_event :=
  let (out, have_subscription) := on_subscribe_loop 0 granted_qos false in
  out ++
  (if negb have_subscription
   then [SessionFprintfStderr "Error: All subscriptions rejected.\n" [];
         MosquittoDisconnect]
   else []).

(** ** Notions used to state the properties of the settings reader *)

Definition CR : ascii := "013"%char.

(** The upper-case label that selects a buffer. *)
Definition label_name (topic : bool) : list ascii :=
  if topic then str "TOPIC" else str "BROKER".

Definition setter (topic : bool) : list ascii -> state -> state :=
  if topic then set_Topic else set_Broker.

(** A non-empty run of characters without space or NUL. *)
Definition is_word (s : list ascii) : Prop :=
  s <> [] /\ Forall (fun c => c <> " "%char /\ c <> NUL) s.

(** What may follow a word on a line: nothing, or a space and anything
    that holds no NUL. *)
Definition is_rest_of_line (s : list ascii) : Prop :=
  Forall (fun c => c <> NUL) s /\ (s = [] \/ exists t, s = " "%char :: t).

(** A line made of spaces only. *)
Definition only_spaces (l : list ascii) : Prop :=
  l <> [] /\ Forall (eq " "%char) l.

(** The text of a file whose lines are each closed by a line feed. *)
Definition file_of_lines (lines : list (list ascii)) : list ascii :=
  concat (map (fun l => l ++ [LF]) lines).

(** Lines short enough for one [fgets], without line feed or NUL inside. *)
Definition short_line (l : list ascii) : Prop :=
  ~ In LF l /\ length l + 1 < BUFFSIZE /\ Forall (fun c => c <> NUL) l.

(** ** Notions used to state the properties of start-up *)

(** The name under which [main] looks for the settings file, for a given
    [argv[0]] and zeroed [g_WorkingDir]. *)
Definition settings_file (path : list ascii) : list ascii :=
  match strrchr path "/" with
  | Some len => firstn (len + 1) path ++ str "settings.dat"
  | None => str "settings.dat"
  end.

Definition is_callback_set (cb : callback) (e : event) : bool :=
  match e, cb with
  | MosquittoCallbackSet CbConnect, CbConnect => true
  | MosquittoCallbackSet CbSubscribe, CbSubscribe => true
  | MosquittoCallbackSet CbMessage, CbMessage => true
  | _, _ => false
  end.

(** The three callbacks have been registered and no connect was made in
    trace [t]. *)
Definition ready_to_connect (t : list event) : bool :=
  existsb (is_callback_set CbConnect) t
  && existsb (is_callback_set CbSubscribe) t
  && existsb (is_callback_set CbMessage) t
  && negb (existsb is_connect t).

(** [f pre e] holds of every event [e] of [t], [pre] being the events
    before it. *)
Fixpoint each_event (f : list event -> event -> bool) (pre t : list event)
  : bool :=
  match t with
  | [] => true
  | e :: t' => f pre e && each_event f (pre ++ [e]) t'
  end.

(** ** Notions used to state what happens before the network loop *)

(** [main] records [mosquitto_loop_forever] as one event: the calls the
    registered callbacks make while the loop runs are not part of the trace
    of [main].  Statements about the pins are therefore made about the
    events that precede the loop. *)
Definition is_loop (e : event) : bool :=
  match e with MosquittoLoopForever => true | _ => false end.

(** A call that configures or writes a pin. *)
Definition touches_pin (e : event) : bool :=
  match e with PinMode _ _ | DigitalWrite _ _ => true | _ => false end.

(** The events of [t] that come before the first call of
    [mosquitto_loop_forever]; all of [t] when there is none. *)
Fixpoint before_loop (t : list event) : list event :=
  match t with
  | [] => []
  | e :: t' => if is_loop e then [] else e :: before_loop t'
  end.

(** * Properties *)

(** ** Traces *)

Lemma pin_writes_app (t1 t2 : list event) :
  pin_writes (t1 ++ t2) = pin_writes t1 ++ pin_writes t2.
Proof.
  induction t1 as [|e t1 IH]; simpl; [reflexivity|].
  destruct e; simpl; rewrite ?IH; reflexivity.
Qed.

Lemma console_no_pin_writes (cs : bool) (payload : list Z) :
  pin_writes
    (map (fun b => Printf "[%d] " [ArgInt (char_to_int cs b)]) payload
         ++ [Printf "\n" []]) = [].
Proof.
  induction payload as [|b p IH]; simpl; auto.
Qed.

(** ** The message callback *)

Section CallbackFacts.

Local Open Scope Z_scope.

Variable cs : bool.

Lemma two_bytes (payload : list Z) :
  length payload = 2%nat -> exists c s, payload = [c; s].
Proof.
  destruct payload as [|c [|s [|x p]]]; simpl; try discriminate.
  intros _. exists c, s. reflexivity.
Qed.

Lemma uint8_pin (c : Z) : 1 <= c <= 16 -> uint8 (c - 1) = c - 1.
Proof. intros H. unfold uint8. apply Z.mod_small. lia. Qed.

(** The callback on a two-byte payload whose channel is in range. *)
Lemma on_message_in_range (c s : Z) :
  1 <= c <= 16 ->
  on_message cs [c; s] =
  ([c - 1; s],
   [Printf "[%d] " [ArgInt (char_to_int cs c)];
    Printf "[%d] " [ArgInt (char_to_int cs s)];
    Printf "\n" [];
    DigitalWrite (c - 1) (if s =? 0 then HIGH else LOW)]).
Proof.
  intros H. unfold on_message. simpl.
  replace (0 <? c) with true by (symmetry; apply Z.ltb_lt; lia).
  replace (c <=? 16) with true by (symmetry; apply Z.leb_le; lia).
  simpl. rewrite uint8_pin by assumption. reflexivity.
Qed.

(** The callback when either check fails: nothing but console output. *)
Lemma on_message_rejected (payload : list Z) :
  length payload <> 2%nat \/ nth 0 payload 0 <= 0 \/ 16 < nth 0 payload 0 ->
  fst (on_message cs payload) = payload /\
  pin_writes (snd (on_message cs payload)) = [].
Proof.
  intros H. unfold on_message.
  destruct (Z.of_nat (length payload) =? 2) eqn:Elen.
  - apply Z.eqb_eq in Elen.
    destruct H as [H | H]; [lia|].
    replace ((0 <? nth 0 payload 0) && (nth 0 payload 0 <=? 16))
      with false.
    + simpl. split; [reflexivity | apply console_no_pin_writes].
    + symmetry. apply andb_false_iff.
      destruct H; [left; apply Z.ltb_ge | right; apply Z.leb_gt]; lia.
  - simpl. split; [reflexivity | apply console_no_pin_writes].
Qed.

(** The callback issues exactly the writes the specification's
    decode-then-apply pipeline asks for. *)
Lemma on_message_refines_spec (payload : list Z) :
  Forall is_byte payload ->
  pin_writes (snd (on_message cs payload)) = Spec.handle payload.
Proof.
  intros Hbytes. unfold Spec.handle, Spec.decode.
  destruct (length payload =? 2)%nat eqn:Elen; simpl.
  - apply Nat.eqb_eq in Elen. destruct (two_bytes _ Elen) as (c & s & ->).
    inversion Hbytes as [|? ? Hc _]; subst. unfold is_byte in Hc.
    simpl. destruct (c =? 0) eqn:E0; simpl.
    + apply Z.eqb_eq in E0. apply on_message_rejected. simpl. lia.
    + destruct (16 <? c) eqn:E16; simpl.
      * apply Z.ltb_lt in E16. apply on_message_rejected. simpl. lia.
      * apply Z.eqb_neq in E0. apply Z.ltb_ge in E16.
        rewrite on_message_in_range by lia. simpl.
        unfold Spec.apply, Spec.pinIndex. simpl.
        destruct (s =? 0); reflexivity.
  - apply Nat.eqb_neq in Elen. apply on_message_rejected. auto.
Qed.

(** C1. A two-byte payload with channel byte [c] in [1,16] and state byte
    [s] decodes to channel [c] and desired state [s != 0]; the callback
    issues exactly one pin write, to pin [c - 1]; and channel -> pin is a
    bijection of [1,16] onto [0,15] that depends on the payload only. *)
Theorem valid_payload_one_write_to_pin (c s : Z) :
  1 <= c <= 16 ->
  is_byte s ->
  Spec.decode [c; s]
    = inl {| Spec.channel := c; Spec.desiredState := negb (s =? 0) |}
  /\ (exists v, pin_writes (snd (on_message cs [c; s])) = [(c - 1, v)])
  /\ 0 <= c - 1 <= 15
  /\ (forall c' s',
        1 <= c' <= 16 ->
        map fst (pin_writes (snd (on_message cs [c'; s'])))
          = map fst (pin_writes (snd (on_message cs [c; s]))) ->
        c' = c)
  /\ (forall p, 0 <= p <= 15 ->
        exists c', 1 <= c' <= 16 /\
          map fst (pin_writes (snd (on_message cs [c'; s]))) = [p]).
Proof.
  intros Hc Hs. repeat split; try lia.
  - unfold Spec.decode. simpl.
    replace (c =? 0) with false by (symmetry; apply Z.eqb_neq; lia).
    replace (16 <? c) with false by (symmetry; apply Z.ltb_ge; lia).
    reflexivity.
  - rewrite on_message_in_range by assumption. simpl. eauto.
  - intros c' s' Hc' Heq.
    rewrite !on_message_in_range in Heq by assumption.
    simpl in Heq. injection Heq as Heq. lia.
  - intros p Hp. exists (p + 1). split; [lia|].
    rewrite on_message_in_range by lia. simpl. f_equal. lia.
Qed.

(** C2. For a valid command the level written is inverted: a non-zero
    state byte (on) drives the pin LOW, a zero state byte (off) drives it
    HIGH, whatever the channel in [1,16]. *)
Theorem valid_payload_level_inverted (c s : Z) :
  1 <= c <= 16 ->
  (s <> 0 -> pin_writes (snd (on_message cs [c; s])) = [(c - 1, LOW)])
  /\ (s = 0 -> pin_writes (snd (on_message cs [c; s])) = [(c - 1, HIGH)]).
Proof.
  intros Hc. rewrite on_message_in_range by assumption. simpl.
  split; intros Hs.
  - apply Z.eqb_neq in Hs. rewrite Hs. reflexivity.
  - subst s. reflexivity.
Qed.

(** C3. A payload whose length is not 2 is an InvalidLength decode
    failure; the callback issues no pin write and leaves the buffer as it
    was (only the console log is produced). *)
Theorem wrong_length_no_write (payload : list Z) :
  length payload <> 2%nat ->
  Spec.decode payload = inr Spec.InvalidLength
  /\ pin_writes (snd (on_message cs payload)) = []
  /\ fst (on_message cs payload) = payload
  /\ forallb is_console (snd (on_message cs payload)) = true.
Proof.
  intros Hlen. split; [|split; [|split]].
  - unfold Spec.decode. apply Nat.eqb_neq in Hlen. rewrite Hlen.
    reflexivity.
  - apply on_message_rejected. auto.
  - apply on_message_rejected. auto.
  - unfold on_message.
    replace (Z.of_nat (length payload) =? 2) with false
      by (symmetry; apply Z.eqb_neq; lia).
    simpl. rewrite forallb_app. simpl. rewrite andb_true_r.
    clear Hlen. induction payload as [|b p IH]; simpl; auto.
Qed.

(** C4. A two-byte payload whose first byte is 0 or greater than 16 is a
    ChannelOutOfRange decode failure; the message is dropped: no pin
    write, buffer untouched. *)
Theorem channel_out_of_range_no_write (c s : Z) :
  c = 0 \/ 16 < c ->
  Spec.decode [c; s] = inr Spec.ChannelOutOfRange
  /\ pin_writes (snd (on_message cs [c; s])) = []
  /\ fst (on_message cs [c; s]) = [c; s].
Proof.
  intros Hc. split; [|split].
  - unfold Spec.decode. simpl.
    destruct Hc as [-> | Hc]; [reflexivity|].
    apply Z.ltb_lt in Hc. rewrite Hc, orb_true_r. reflexivity.
  - apply on_message_rejected. simpl. lia.
  - apply on_message_rejected. simpl. lia.
Qed.

(** C9. On a two-byte payload with channel [c] in [1,16] the callback
    rewrites byte 0 of the caller's buffer to [c - 1] (so the buffer is
    no longer what was received) and writes the pin named by that byte;
    a payload failing the length or the range check is left unchanged. *)
Theorem payload_buffer_mutated_in_place (c s : Z) :
  1 <= c <= 16 ->
  fst (on_message cs [c; s]) = [c - 1; s]
  /\ fst (on_message cs [c; s]) <> [c; s]
  /\ map fst (pin_writes (snd (on_message cs [c; s])))
       = [nth 0 (fst (on_message cs [c; s])) 0]
  /\ (forall payload,
        length payload <> 2%nat \/
        nth 0 payload 0 <= 0 \/ 16 < nth 0 payload 0 ->
        fst (on_message cs payload) = payload).
Proof.
  intros Hc. rewrite on_message_in_range by assumption. simpl.
  repeat split.
  - intros Heq. injection Heq as Heq. lia.
  - intros payload H. apply on_message_rejected. assumption.
Qed.

End CallbackFacts.

Lemma valid_payload_one_write_to_pin_witness :
  (1 <= 16 <= 16)%Z /\ is_byte 0 /\
  Spec.decode [16; 0]%Z
    = inl {| Spec.channel := 16; Spec.desiredState := false |}
  /\ (exists v, pin_writes (snd (on_message false [16; 0]%Z)) = [(15%Z, v)]).
Proof.
  assert (Hc : (1 <= 16 <= 16)%Z) by lia.
  assert (Hs : is_byte 0) by (unfold is_byte; lia).
  destruct (valid_payload_one_write_to_pin false Hc Hs) as (Hd & Hw & _).
  repeat split; try lia; assumption.
Defined.

Lemma valid_payload_level_inverted_witness :
  (1 <= 1 <= 16)%Z /\
  pin_writes (snd (on_message false [1; 1]%Z)) = [(0%Z, LOW)].
Proof.
  assert (Hc : (1 <= 1 <= 16)%Z) by lia.
  split; [exact Hc|].
  apply (proj1 (valid_payload_level_inverted false 1 Hc)). discriminate.
Defined.

Lemma wrong_length_no_write_witness :
  length [1; 1; 1]%Z <> 2 /\
  Spec.decode [1; 1; 1]%Z = inr Spec.InvalidLength /\
  pin_writes (snd (on_message false [1; 1; 1]%Z)) = [].
Proof.
  assert (Hlen : length [1; 1; 1]%Z <> 2) by (simpl; lia).
  destruct (wrong_length_no_write false [1; 1; 1]%Z Hlen) as (Hd & Hw & _).
  repeat split; assumption.
Defined.

Lemma channel_out_of_range_no_write_witness :
  (0 = 0 \/ 16 < 0)%Z /\
  Spec.decode [0; 1]%Z = inr Spec.ChannelOutOfRange /\
  pin_writes (snd (on_message false [0; 1]%Z)) = [].
Proof.
  assert (Hc : (0 = 0 \/ 16 < 0)%Z) by (left; reflexivity).
  destruct (channel_out_of_range_no_write false 1 Hc) as (Hd & Hw & _).
  repeat split; assumption.
Defined.

Lemma payload_buffer_mutated_in_place_witness :
  (1 <= 5 <= 16)%Z /\ fst (on_message true [5; 200]%Z) = [4; 200]%Z.
Proof.
  assert (Hc : (1 <= 5 <= 16)%Z) by lia.
  split; [exact Hc|].
  apply (proj1 (payload_buffer_mutated_in_place true 200 Hc)).
Defined.

(** ** The settings reader *)

Lemma read_lines_step (stream : list ascii) (st : state) :
  read_lines stream st =
  match fgets BUFFSIZE stream with
  | None => Ok (tt, st)
  | Some (buffer, rest) =>
      match process_line buffer st with
      | Ok (_, st') => read_lines rest st'
      | Undefined => Undefined
      end
  end.
Proof.
  simp read_lines. unfold inspect.
  assert (G : forall o (e : fgets BUFFSIZE stream = o),
             read_lines_unfold_clause_1 stream (exist _ o e) st =
             match o with
             | None => Ok (tt, st)
             | Some (buffer, rest) =>
                 match process_line buffer st with
                 | Ok (_, st') => read_lines rest st'
                 | Undefined => Undefined
                 end
             end).
  { intros [[buffer rest]|] e; simpl; [|reflexivity].
    destruct (process_line buffer st) as [[[] st']|]; reflexivity. }
  apply G.
Qed.

Lemma override_none (st : state) : override None None st = st.
Proof. destruct st; reflexivity. Qed.

Lemma override_override (t1 b1 t2 b2 : option (list ascii)) (st : state) :
  override t2 b2 (override t1 b1 st) =
  override (match t2 with Some v => Some v | None => t1 end)
           (match b2 with Some v => Some v | None => b1 end) st.
Proof. destruct t1, b1, t2, b2; reflexivity. Qed.

(** What one line does never depends on the state it starts from: it is
    undefined, or it is a fixed [override]. *)
Lemma process_line_uniform (buffer : list ascii) :
  (forall st, process_line buffer st = Undefined) \/
  (exists topic broker,
      forall st, process_line buffer st = Ok (tt, override topic broker st)).
Proof.
  assert (Hid : exists topic broker,
             forall st, @ret unit tt st = Ok (tt, override topic broker st)).
  { exists None, None. intros st. rewrite override_none. reflexivity. }
  assert (Hcpy : forall (topic : bool) v,
             (forall st, strcpy_into (if topic then set_Topic else set_Broker)
                                     v st = Undefined) \/
             (exists t b, forall st,
                 strcpy_into (if topic then set_Topic else set_Broker) v st
                 = Ok (tt, override t b st))).
  { intros topic v. unfold strcpy_into.
    destruct (length v <? BUFFSIZE); [right | left; reflexivity].
    destruct topic; [exists (Some v), None | exists None, (Some v)];
      intros []; reflexivity. }
  unfold process_line.
  destruct (c_str buffer) as [|c cs]; [left; reflexivity|].
  unfold apply_line.
  destruct (0 <? strlen (removelast (c :: cs))); [|right; exact Hid].
  destruct (negb _); [|right; exact Hid].
  destruct (strtok (removelast (c :: cs)) (str " ")) as [[tok saved]|];
    [|left; reflexivity].
  destruct (streq (map toupper tok) (str "TOPIC")).
  - destruct (strtok saved (str " ")) as [[v ?]|]; [|right; exact Hid].
    apply (Hcpy true).
  - destruct (streq (map toupper tok) (str "BROKER")); [|right; exact Hid].
    destruct (strtok saved (str " ")) as [[v ?]|]; [|right; exact Hid].
    apply (Hcpy false).
Qed.

Lemma fgets_chars_rest_le (k : nat) (s : list ascii) :
  length (snd (fgets_chars k s)) <= length s.
Proof.
  revert s. induction k as [|k IH]; intros [|c s]; simpl; auto.
  destruct (Ascii.eqb c LF); simpl; auto.
  specialize (IH s). destruct (fgets_chars k s); simpl in *; lia.
Qed.

Lemma fgets_chars_rest_lt (k : nat) (c : ascii) (s : list ascii) :
  length (snd (fgets_chars (S k) (c :: s))) < length (c :: s).
Proof.
  pose proof (fgets_chars_rest_le k s) as Hle. simpl.
  destruct (Ascii.eqb c LF); simpl; [lia|].
  destruct (fgets_chars k s); simpl in *; lia.
Qed.

Lemma fgets_rest_shorter (stream buffer rest : list ascii) :
  fgets BUFFSIZE stream = Some (buffer, rest) ->
  length rest < length stream.
Proof.
  destruct stream as [|c s]; [discriminate|].
  unfold fgets. change (BUFFSIZE - 1) with (S 48).
  intros E. pose proof (fgets_chars_rest_lt 48 c s) as Hlt.
  destruct (fgets_chars (S 48) (c :: s)) as [l r].
  injection E as _ <-. exact Hlt.
Qed.

(** The same holds of the whole loop. *)
Lemma read_lines_uniform (stream : list ascii) :
  (forall st, read_lines stream st = Undefined) \/
  (exists topic broker,
      forall st, read_lines stream st = Ok (tt, override topic broker st)).
Proof.
  remember (length stream) as n eqn:Hn. revert stream Hn.
  induction n as [n IH] using lt_wf_ind. intros stream ->.
  destruct (fgets BUFFSIZE stream) as [[buffer rest]|] eqn:E.
  - destruct (process_line_uniform buffer) as [Hu | (t1 & b1 & H1)].
    + left. intros st. rewrite read_lines_step, E, Hu. reflexivity.
    + destruct (IH (length rest) (fgets_rest_shorter _ E) rest eq_refl)
        as [Hu | (t2 & b2 & H2)].
      * left. intros st. rewrite read_lines_step, E, H1. apply Hu.
      * right. eexists _, _. intros st.
        rewrite read_lines_step, E, H1, H2, override_override.
        reflexivity.
  - right. exists None, None. intros st.
    rewrite read_lines_step, E, override_none. reflexivity.
Qed.

Section SettingsFacts.

Variable w : world.

Lemma displaySettings_run (st : state) :
  displaySettings st =
  Ok (tt, {| g_Topic := g_Topic st; g_Broker := g_Broker st;
             g_WorkingDir := g_WorkingDir st;
             trace := trace st ++
                      [Printf "TOPIC: %s\n" [ArgStr (g_Topic st)];
                       Printf "BROKER: %s\n\n" [ArgStr (g_Broker st)]] |}).
Proof.
  unfold displaySettings, bind, gets, emit. simpl.
  rewrite <- app_assoc. reflexivity.
Qed.

(** The path of the settings file does not fit the local buffer. *)
Lemma readSettings_path_too_long (st : state) :
  BUFFSIZE <= length (settings_path st) ->
  readSettings w st = Undefined.
Proof.
  intros H. unfold readSettings, bind, gets. cbv beta match.
  apply Nat.leb_le in H. unfold settings_path in H. rewrite H.
  reflexivity.
Qed.

(** The branch taken when [fopen] fails. *)
Lemma readSettings_open_fails (st : state) :
  length (settings_path st) < BUFFSIZE ->
  fopen w (settings_path st) = None ->
  readSettings w st =
  Ok (false,
      {| g_Topic := str "relays"; g_Broker := str "192.168.0.1";
         g_WorkingDir := g_WorkingDir st;
         trace := trace st ++
           [Printf "Unable to open file: %s, using defaults.\n\n"
                   [ArgStr (settings_path st)];
            Printf "TOPIC: %s\n" [ArgStr (str "relays")];
            Printf "BROKER: %s\n\n" [ArgStr (str "192.168.0.1")]] |}).
Proof.
  intros Hfit Hopen. unfold readSettings, bind, gets. cbv beta match.
  apply Nat.leb_gt in Hfit. unfold settings_path in *.
  rewrite Hfit, Hopen. simpl. rewrite <- !app_assoc. reflexivity.
Qed.

(** The branch taken when [fopen] succeeds. *)
Lemma readSettings_opens (st : state) (stream : list ascii) :
  length (settings_path st) < BUFFSIZE ->
  fopen w (settings_path st) = Some stream ->
  readSettings w st =
  match read_lines stream st with
  | Ok (_, st1) =>
      Ok (true,
          {| g_Topic := g_Topic st1; g_Broker := g_Broker st1;
             g_WorkingDir := g_WorkingDir st1;
             trace := trace st1 ++
                      [Printf "TOPIC: %s\n" [ArgStr (g_Topic st1)];
                       Printf "BROKER: %s\n\n" [ArgStr (g_Broker st1)]] |})
  | Undefined => Undefined
  end.
Proof.
  intros Hfit Hopen. unfold readSettings, bind, gets. cbv beta match.
  apply Nat.leb_gt in Hfit. unfold settings_path in *.
  rewrite Hfit, Hopen.
  destruct (read_lines stream st) as [[[] st1]|]; [|reflexivity].
  fold (bind displaySettings (fun _ => ret true)).
  unfold bind. rewrite displaySettings_run. reflexivity.
Qed.

(** C8. Resolving the same source a second time, right after the first,
    gives the same result and the same broker address and topic name as
    resolving it once (and a run that leaves defined behaviour does so
    on the first pass already). *)
Theorem readSettings_idempotent (st : state) :
  resolved ((exec readSettings w ; readSettings w) st)
  = resolved (readSettings w st).
Proof.
  unfold bind.
  destruct (le_lt_dec BUFFSIZE (length (settings_path st))) as [Hlong|Hfit].
  { rewrite readSettings_path_too_long by assumption. reflexivity. }
  destruct (fopen w (settings_path st)) as [stream|] eqn:Hopen.
  - rewrite (readSettings_opens st Hfit Hopen).
    destruct (read_lines_uniform stream) as [Hu | (t & b & Hrun)].
    + rewrite Hu. reflexivity.
    + rewrite Hrun.
      rewrite (@readSettings_opens _ stream) by (simpl; assumption).
      rewrite Hrun. destruct t, b; reflexivity.
  - rewrite (readSettings_open_fails st Hfit Hopen).
    rewrite readSettings_open_fails by (simpl; assumption).
    reflexivity.
Qed.

End SettingsFacts.

(** ** Start-up *)

Lemma add_trace_nil (st : state) : add_trace [] st = st.
Proof. destruct st. unfold add_trace. simpl. rewrite app_nil_r. reflexivity. Qed.

Lemma add_trace_add_trace (t1 t2 : list event) (st : state) :
  add_trace t2 (add_trace t1 st) = add_trace (t1 ++ t2) st.
Proof. unfold add_trace. simpl. rewrite app_assoc. reflexivity. Qed.

Lemma displayHeader_run (st : state) :
  exists out, displayHeader st = Ok (tt, add_trace out st)
              /\ forallb is_console out = true.
Proof.
  eexists. unfold displayHeader, bind, emit, add_trace.
  change (BUFFSIZE <=? length g_Title + 4) with false. cbv beta match.
  simpl. rewrite <- !app_assoc. simpl. split; reflexivity.
Qed.

Lemma parseWorkingDir_run (path : list ascii) (st st1 : state) :
  parseWorkingDir path st = Ok (tt, st1) ->
  trace st1 = trace st /\ g_Topic st1 = g_Topic st
  /\ g_Broker st1 = g_Broker st.
Proof.
  unfold parseWorkingDir, undefined, ret.
  destruct (BUFFSIZE <=? length path); [discriminate|].
  destruct (strrchr path "/"); intros E; injection E as <-; auto.
Qed.

Section StartupFacts.

Variable w : world.

Lemma gpio_loop_run (pins : list nat) (st : state) :
  fold_right
    (fun i rest =>
       exec emit (PinMode (Z.of_nat i) OUTPUT) ;
       exec emit (DigitalWrite (Z.of_nat i) HIGH) ;
       rest)
    (ret tt) pins st =
  Ok (tt, add_trace
            (flat_map (fun i => [PinMode (Z.of_nat i) OUTPUT;
                                 DigitalWrite (Z.of_nat i) HIGH]) pins)
            st).
Proof.
  revert st. induction pins as [|i pins IH]; intros st.
  - cbn [fold_right flat_map]. rewrite add_trace_nil. reflexivity.
  - cbn [fold_right flat_map]. unfold bind at 1 2, emit.
    rewrite IH. unfold add_trace. cbn [trace g_Topic g_Broker g_WorkingDir].
    rewrite <- !app_assoc. reflexivity.
Qed.

Lemma gpioSetup_run (st : state) :
  gpioSetup w st =
  Ok (tt, add_trace (WiringPiSetup ::
                     if (wiringPiSetup_rc w =? 0)%Z then gpio_events
                     else []) st).
Proof.
  unfold gpioSetup. unfold bind at 1, emit.
  destruct (wiringPiSetup_rc w =? 0)%Z.
  - rewrite gpio_loop_run. fold gpio_events. unfold add_trace.
    cbn [trace g_Topic g_Broker g_WorkingDir].
    rewrite <- app_assoc. reflexivity.
  - reflexivity.
Qed.

(** Settings resolution only prints. *)
Lemma readSettings_trace (st st' : state) (b : bool) :
  readSettings w st = Ok (b, st') ->
  exists out, trace st' = trace st ++ out
              /\ forallb is_console out = true.
Proof.
  destruct (le_lt_dec BUFFSIZE (length (settings_path st))) as [Hlong|Hfit].
  { rewrite readSettings_path_too_long by assumption. discriminate. }
  destruct (fopen w (settings_path st)) as [stream|] eqn:Hopen.
  - rewrite (readSettings_opens w st Hfit Hopen).
    destruct (read_lines_uniform stream) as [Hu | (t & tb & Hrun)].
    + rewrite Hu. discriminate.
    + rewrite Hrun. intros E. injection E as _ <-. simpl.
      eexists. split; reflexivity.
  - rewrite (readSettings_open_fails w st Hfit Hopen).
    intros E. injection E as _ <-. simpl. eexists. split; reflexivity.
Qed.

(** [main] is the three preparation steps followed by a fixed list of
    start-up events. *)
Lemma main_run (st0 : state) :
  main w st0 =
  match parseWorkingDir (argv0 w) st0 with
  | Ok (_, st1) =>
      match displayHeader st1 with
      | Ok (_, st2) =>
          match readSettings w st2 with
          | Ok (_, st3) =>
              Ok (exit_status w,
                  add_trace (startup_events w (g_Broker st3)) st3)
          | Undefined => Undefined
          end
      | Undefined => Undefined
      end
  | Undefined => Undefined
  end.
Proof.
  unfold main. unfold bind at 1.
  destruct (parseWorkingDir (argv0 w) st0) as [[[] st1]|]; [|reflexivity].
  unfold bind at 1.
  destruct (displayHeader st1) as [[[] st2]|]; [|reflexivity].
  unfold bind at 1.
  destruct (readSettings w st2) as [[b st3]|]; [|reflexivity].
  unfold bind at 1. rewrite gpioSetup_run.
  unfold exit_status, startup_events, bind, emit, gets, ret, add_trace.
  cbv beta match.
  destruct (mosquitto_new_ok w), (mosquitto_connect_rc w =? 0)%Z;
    cbn [negb andb trace g_Topic g_Broker g_WorkingDir];
    rewrite <- ?app_assoc; cbn [app]; rewrite <- ?app_assoc;
    reflexivity.
Qed.

End StartupFacts.

Lemma last_level_app (pin : Z) (t1 t2 : list event) :
  last_level pin (t1 ++ t2) =
  match last_level pin t2 with
  | Some v => Some v
  | None => last_level pin t1
  end.
Proof.
  induction t1 as [|e t1 IH]; simpl.
  - destruct (last_level pin t2); reflexivity.
  - rewrite IH. destruct (last_level pin t2); reflexivity.
Qed.

Lemma last_mode_app (pin : Z) (t1 t2 : list event) :
  last_mode pin (t1 ++ t2) =
  match last_mode pin t2 with
  | Some m => Some m
  | None => last_mode pin t1
  end.
Proof.
  induction t1 as [|e t1 IH]; simpl.
  - destruct (last_mode pin t2); reflexivity.
  - rewrite IH. destruct (last_mode pin t2); reflexivity.
Qed.

(** Earlier events do not undo readiness. *)
Lemma pins_ready_app (t1 t2 : list event) :
  pins_ready t2 = true -> pins_ready (t1 ++ t2) = true.
Proof.
  unfold pins_ready. rewrite !forallb_forall. intros H i Hi.
  specialize (H i Hi). rewrite last_mode_app, last_level_app.
  destruct (last_mode (Z.of_nat i) t2) as [[]|]; try discriminate.
  destruct (last_level (Z.of_nat i) t2) as [[]|]; try discriminate.
  reflexivity.
Qed.

Lemma pins_ready_spec (t : list event) (pin : Z) :
  pins_ready t = true -> (0 <= pin <= 15)%Z ->
  last_mode pin t = Some OUTPUT /\ last_level pin t = Some HIGH.
Proof.
  unfold pins_ready. rewrite forallb_forall. intros H Hpin.
  specialize (H (Z.to_nat pin)). rewrite Z2Nat.id in H by lia.
  assert (Hin : In (Z.to_nat pin) (seq 0 16)) by (apply in_seq; lia).
  specialize (H Hin).
  destruct (last_mode pin t) as [[]|]; try discriminate.
  destruct (last_level pin t) as [[]|]; try discriminate.
  split; reflexivity.
Qed.

Lemma transport_guarded_sound (acc t pre post : list event) (e : event) :
  transport_guarded acc t = true ->
  t = pre ++ e :: post ->
  is_transport e = true ->
  pins_ready (acc ++ pre) = true.
Proof.
  revert acc pre. induction t as [|x t IH]; intros acc pre Hg Heq He.
  - destruct pre; discriminate.
  - simpl in Hg. apply andb_true_iff in Hg. destruct Hg as [Hx Hg].
    destruct pre as [|y pre]; simpl in Heq; injection Heq as -> ->.
    + rewrite He in Hx. rewrite app_nil_r. exact Hx.
    + specialize (IH (acc ++ [y]) pre Hg eq_refl He).
      rewrite <- app_assoc in IH. exact IH.
Qed.

(** An event that is not console output lies beyond a console prefix. *)
Lemma split_after_console (console tail pre post : list event) (e : event) :
  forallb is_console console = true ->
  is_console e = false ->
  console ++ tail = pre ++ e :: post ->
  exists pre', pre = console ++ pre' /\ tail = pre' ++ e :: post.
Proof.
  revert pre. induction console as [|c console IH]; intros pre Hc He Heq.
  - exists pre. auto.
  - simpl in Hc. apply andb_true_iff in Hc. destruct Hc as [Hc1 Hc].
    destruct pre as [|y pre]; simpl in Heq; injection Heq as Hy Heq.
    + subst c. congruence.
    + subst y. destruct (IH pre Hc He Heq) as (pre' & -> & ->).
      exists pre'. auto.
Qed.

Lemma startup_transport_guarded (w : world) (broker : list ascii) :
  wiringPiSetup_rc w = 0%Z ->
  transport_guarded [] (startup_events w broker) = true.
Proof.
  intros Hrc. unfold startup_events. rewrite Hrc.
  destruct (mosquitto_new_ok w), (mosquitto_connect_rc w =? 0)%Z;
    vm_compute; reflexivity.
Qed.

(** The trace of a completed [main]: console output, then the start-up
    events. *)
Lemma main_trace (w : world) (rc : Z) (st' : state) :
  main w initial_state = Ok (rc, st') ->
  exists console,
    trace st' = console ++ startup_events w (g_Broker st')
    /\ forallb is_console console = true.
Proof.
  rewrite main_run.
  destruct (parseWorkingDir (argv0 w) initial_state) as [[[] st1]|] eqn:E1;
    [|discriminate].
  apply parseWorkingDir_run in E1. destruct E1 as (Ht1 & _).
  destruct (displayHeader_run st1) as (out2 & -> & Hout2).
  destruct (readSettings w (add_trace out2 st1)) as [[b st3]|] eqn:E3;
    [|discriminate].
  apply readSettings_trace in E3. destruct E3 as (out3 & Ht3 & Hout3).
  intros E. injection E as _ <-. simpl.
  rewrite Ht3. simpl. rewrite Ht1. simpl.
  exists (out2 ++ out3). split; [reflexivity|].
  rewrite forallb_app, Hout2, Hout3. reflexivity.
Qed.

Lemma no_pin_event_state (pin : Z) (t : list event) :
  existsb touches_pin t = false ->
  last_mode pin t = None /\ last_level pin t = None.
Proof.
  induction t as [|e t IH]; simpl; [auto|].
  intros H. apply orb_false_iff in H. destruct H as [He Ht].
  destruct (IH Ht) as [-> ->].
  destruct e; try discriminate; auto.
Qed.

Lemma console_no_pin_event (console : list event) :
  forallb is_console console = true ->
  existsb touches_pin console = false.
Proof.
  induction console as [|e c IH]; simpl; [reflexivity|].
  intros H. apply andb_true_iff in H. destruct H as [He Hc].
  rewrite (IH Hc). destruct e; try discriminate; reflexivity.
Qed.

Lemma startup_without_setup (w : world) (broker : list ascii) :
  wiringPiSetup_rc w <> 0%Z ->
  existsb touches_pin (startup_events w broker) = false.
Proof.
  intros Hrc. apply Z.eqb_neq in Hrc. unfold startup_events. rewrite Hrc.
  destruct (mosquitto_new_ok w), (mosquitto_connect_rc w =? 0)%Z;
    reflexivity.
Qed.

Lemma startup_connects (w : world) (broker : list ascii) :
  mosquitto_new_ok w = true ->
  In (MosquittoConnect broker 1883 60) (startup_events w broker).
Proof.
  intros Hnew. unfold startup_events. rewrite Hnew.
  right. apply in_or_app. right. simpl. auto 10.
Qed.

(** C7, as the code has it. Take any call [main] makes into the mosquitto
    library up to and including the call of the network loop (the broker
    connect is one of them).  When [wiringPiSetup] returned 0, all 16 pins
    (0 to 15) have been configured as outputs and driven HIGH before that
    call and are still so.  When [wiringPiSetup] returned anything else,
    no pin at all has been configured or written before that call, and
    start-up goes on all the same: whatever [wiringPiSetup] returned, the
    connect is attempted whenever [mosquitto_new] returned a client. *)
Theorem pins_high_before_connect (w : world) (rc : Z) (st' : state)
    (pre post : list event) (e : event) :
  main w initial_state = Ok (rc, st') ->
  trace st' = pre ++ e :: post ->
  is_transport e = true ->
  existsb is_loop pre = false ->
  (wiringPiSetup_rc w = 0%Z ->
   forall pin, (0 <= pin <= 15)%Z ->
     last_mode pin pre = Some OUTPUT /\ last_level pin pre = Some HIGH)
  /\ (wiringPiSetup_rc w <> 0%Z ->
      forall pin, last_mode pin pre = None /\ last_level pin pre = None)
  /\ (mosquitto_new_ok w = true ->
      In (MosquittoConnect (g_Broker st') 1883 60) (trace st')).
Proof.
  intros Hmain Hsplit He _.
  destruct (@main_trace w rc st' Hmain) as (console & Htrace & Hconsole).
  split; [|split].
  - intros Hrc pin Hpin. rewrite Htrace in Hsplit.
    assert (Hne : is_console e = false) by (destruct e; auto; discriminate).
    destruct (@split_after_console console _ pre post e Hconsole Hne Hsplit)
      as (pre' & -> & Htail).
    apply pins_ready_spec; [|assumption].
    apply pins_ready_app.
    apply (@transport_guarded_sound [] _ pre' post e
             (@startup_transport_guarded w (g_Broker st') Hrc) Htail He).
  - intros Hrc pin. apply no_pin_event_state.
    assert (Hall : existsb touches_pin (trace st') = false).
    { rewrite Htrace, existsb_app, (console_no_pin_event _ Hconsole).
      apply startup_without_setup. assumption. }
    rewrite Hsplit, existsb_app in Hall.
    apply orb_false_iff in Hall. tauto.
  - intros Hnew. rewrite Htrace. apply in_or_app. right.
    apply startup_connects. assumption.
Qed.

Lemma pins_high_before_connect_witness :
  exists rc st' pre e post,
    wiringPiSetup_rc (sample_world None 0) = 0%Z
    /\ main (sample_world None 0) initial_state = Ok (rc, st')
    /\ trace st' = pre ++ e :: post
    /\ is_connect e = true
    /\ is_transport e = true
    /\ existsb is_loop pre = false
    /\ last_mode 7 pre = Some OUTPUT /\ last_level 7 pre = Some HIGH.
Proof.
  destruct (main (sample_world None 0) initial_state) as [[rc st']|] eqn:Hmain;
    [|vm_compute in Hmain; discriminate].
  assert (Hsplit : trace st' = firstn 44 (trace st')
                                 ++ nth 44 (trace st') WiringPiSetup
                                 :: skipn 45 (trace st')).
  { vm_compute in Hmain. injection Hmain as _ <-. reflexivity. }
  assert (Hc : is_connect (nth 44 (trace st') WiringPiSetup) = true).
  { vm_compute in Hmain. injection Hmain as _ <-. reflexivity. }
  assert (He : is_transport (nth 44 (trace st') WiringPiSetup) = true).
  { vm_compute in Hmain. injection Hmain as _ <-. reflexivity. }
  assert (Hloop : existsb is_loop (firstn 44 (trace st')) = false).
  { vm_compute in Hmain. injection Hmain as _ <-. reflexivity. }
  assert (Hpin : (0 <= 7 <= 15)%Z) by lia.
  exists rc, st', (firstn 44 (trace st')),
    (nth 44 (trace st') WiringPiSetup), (skipn 45 (trace st')).
  split; [reflexivity|]. split; [reflexivity|].
  split; [exact Hsplit|]. split; [exact Hc|]. split; [exact He|].
  split; [exact Hloop|].
  exact (proj1 (@pins_high_before_connect (sample_world None 0) rc st'
                  _ _ _ Hmain Hsplit He Hloop) eq_refl 7%Z Hpin).
Defined.

(** C7 does not hold as stated: when [wiringPiSetup] returns non-zero,
    [gpioSetup] touches no pin, and [main] still goes on to connect. *)
Lemma setup_failure_connects_unprepared :
  exists rc st' pre e post,
    main (sample_world None (-1)) initial_state = Ok (rc, st')
    /\ trace st' = pre ++ e :: post
    /\ is_connect e = true
    /\ pin_writes pre = []
    /\ ~ (last_mode 0 pre = Some OUTPUT /\ last_level 0 pre = Some HIGH).
Proof.
  destruct (main (sample_world None (-1)) initial_state)
    as [[rc st']|] eqn:Hmain; [|vm_compute in Hmain; discriminate].
  exists rc, st', (firstn 12 (trace st')),
    (nth 12 (trace st') WiringPiSetup), (skipn 13 (trace st')).
  vm_compute in Hmain. injection Hmain as _ <-.
  split; [reflexivity|]. repeat (split; [reflexivity|]).
  vm_compute. intros [H _]. discriminate.
Qed.

(** ** Missing settings file *)

(** C6. When the settings file cannot be opened, [readSettings] completes
    (it reports [false], nothing worse) and the configuration is the
    built-in one, broker 192.168.0.1 and topic relays.  When this happens
    in [main], that is from the state [main] is in after
    [parseWorkingDir] and [displayHeader], [main] goes on with start-up:
    it completes with the defaults still in force, having run
    [gpioSetup], initialised the library and created the client, and it
    attempts the connect, to 192.168.0.1, whenever the client exists. *)
Theorem missing_source_gives_defaults (w : world) (st : state) :
  length (settings_path st) < BUFFSIZE ->
  fopen w (settings_path st) = None ->
  exists st',
    readSettings w st = Ok (false, st')
    /\ session_config st' = (str "192.168.0.1", str "relays")
    /\ session_config st' = (Spec.default_broker, Spec.default_topic)
    /\ ((exec parseWorkingDir (argv0 w) ; displayHeader) initial_state
          = Ok (tt, st) ->
        exists st'',
          main w initial_state = Ok (exit_status w, st'')
          /\ session_config st'' = (str "192.168.0.1", str "relays")
          /\ trace st'' = trace st' ++ startup_events w (str "192.168.0.1")
          /\ In WiringPiSetup (trace st'')
          /\ In MosquittoLibInit (trace st'')
          /\ In MosquittoNew (trace st'')
          /\ (mosquitto_new_ok w = true ->
              In (MosquittoConnect (str "192.168.0.1") 1883 60)
                 (trace st''))).
Proof.
  intros Hfit Hopen. eexists. split.
  - apply readSettings_open_fails; assumption.
  - split; [reflexivity|]. split; [reflexivity|].
    intros Hpre. rewrite main_run. unfold bind in Hpre.
    destruct (parseWorkingDir (argv0 w) initial_state) as [[[] st1]|];
      [|discriminate].
    rewrite Hpre. rewrite readSettings_open_fails by assumption.
    eexists. split; [reflexivity|]. split; [reflexivity|].
    split; [reflexivity|].
    cbn [trace add_trace g_Broker].
    repeat split.
    + apply in_or_app. right. left. reflexivity.
    + apply in_or_app. right. right. apply in_or_app. right. left.
      reflexivity.
    + apply in_or_app. right. right. apply in_or_app. right. right. left.
      reflexivity.
    + intros Hnew. apply in_or_app. right.
      apply startup_connects. assumption.
Qed.

Lemma missing_source_gives_defaults_witness :
  exists st st' st'',
    (exec parseWorkingDir (argv0 (sample_world None 0)) ; displayHeader)
      initial_state = Ok (tt, st)
    /\ length (settings_path st) < BUFFSIZE
    /\ fopen (sample_world None 0) (settings_path st) = None
    /\ readSettings (sample_world None 0) st = Ok (false, st')
    /\ session_config st' = (str "192.168.0.1", str "relays")
    /\ main (sample_world None 0) initial_state = Ok (0%Z, st'')
    /\ In (MosquittoConnect (str "192.168.0.1") 1883 60) (trace st'').
Proof.
  destruct ((exec parseWorkingDir (argv0 (sample_world None 0)) ;
             displayHeader) initial_state) as [[[] st]|] eqn:Hpre;
    [|vm_compute in Hpre; discriminate].
  assert (Hfit : length (settings_path st) < BUFFSIZE).
  { vm_compute in Hpre. injection Hpre as <-. vm_compute. lia. }
  assert (Hopen : fopen (sample_world None 0) (settings_path st) = None).
  { vm_compute in Hpre. injection Hpre as <-. reflexivity. }
  destruct (@missing_source_gives_defaults (sample_world None 0) st
              Hfit Hopen) as (st' & Hrun & Hcfg & _ & Hmain).
  destruct (Hmain Hpre) as (st'' & Hm & _ & _ & _ & _ & _ & Hconn).
  exists st, st', st''.
  split; [reflexivity|]. split; [exact Hfit|]. split; [exact Hopen|].
  split; [exact Hrun|]. split; [exact Hcfg|]. split; [exact Hm|].
  apply Hconn. reflexivity.
Defined.

(** Start-up goes on after the failed open: [main] completes, the pins are
    set up, the client is created and the connect is made to the default
    broker. *)
Lemma main_starts_without_settings (w : world) (st1 : state) :
  parseWorkingDir (argv0 w) initial_state = Ok (tt, st1) ->
  length (settings_path st1) < BUFFSIZE ->
  fopen w (settings_path st1) = None ->
  exists console st',
    main w initial_state = Ok (exit_status w, st')
    /\ session_config st' = (str "192.168.0.1", str "relays")
    /\ forallb is_console console = true
    /\ trace st' = console ++ startup_events w (str "192.168.0.1").
Proof.
  intros Hparse Hfit Hopen. rewrite main_run, Hparse.
  pose proof (parseWorkingDir_run _ _ Hparse) as (Ht1 & _).
  destruct (displayHeader_run st1) as (out2 & -> & Hout2).
  rewrite readSettings_open_fails by assumption.
  exists (out2 ++
          [Printf "Unable to open file: %s, using defaults.\n\n"
                  [ArgStr (settings_path (add_trace out2 st1))];
           Printf "TOPIC: %s\n" [ArgStr (str "relays")];
           Printf "BROKER: %s\n\n" [ArgStr (str "192.168.0.1")]]).
  eexists. split; [reflexivity|]. split; [reflexivity|].
  split; [rewrite forallb_app, Hout2; reflexivity|].
  simpl. rewrite Ht1. simpl. rewrite <- !app_assoc. reflexivity.
Qed.

(** ** Reading line by line *)

Lemma ends_with_LF_tail (c : ascii) (s : list ascii) :
  ends_with_LF (c :: s) -> s = [] \/ ends_with_LF s.
Proof.
  intros [p Hp]. destruct p as [|x p]; simpl in Hp; injection Hp as -> ->.
  - left. reflexivity.
  - right. exists p. reflexivity.
Qed.

Lemma ends_with_LF_head (c : ascii) (s : list ascii) :
  ends_with_LF (c :: s) -> Ascii.eqb c LF = false -> ends_with_LF s.
Proof.
  intros H Hc. destruct (ends_with_LF_tail H) as [-> | Hs]; [|exact Hs].
  destruct H as [p Hp].
  destruct p as [|x [|y p]]; simpl in Hp; try discriminate.
  injection Hp as ->. rewrite Ascii.eqb_refl in Hc. discriminate.
Qed.

(** [fgets] never reads past a line feed: what follows a text that ends in
    one is left for later calls. *)
Lemma fgets_chars_app (k : nat) (pre rest : list ascii) :
  ends_with_LF pre ->
  fgets_chars k (pre ++ rest)
    = (fst (fgets_chars k pre), snd (fgets_chars k pre) ++ rest)
  /\ (snd (fgets_chars k pre) = [] \/ ends_with_LF (snd (fgets_chars k pre))).
Proof.
  revert pre. induction k as [|k IH]; intros pre Hpre.
  - simpl. auto.
  - destruct pre as [|c pre].
    + destruct Hpre as [[|? ?] Hp]; discriminate.
    + simpl. destruct (Ascii.eqb c LF) eqn:Ec.
      * simpl. split; [reflexivity|]. apply (ends_with_LF_tail Hpre).
      * destruct (IH pre (ends_with_LF_head Hpre Ec)) as [E Hs].
        rewrite E. destruct (fgets_chars k pre) as [l r]. simpl in *. auto.
Qed.

(** A short text without an inner line feed is read in one call. *)
Lemma fgets_chars_short (k : nat) (l : list ascii) :
  length l <= k -> ~ In LF (removelast l) -> fgets_chars k l = (l, []).
Proof.
  revert k. induction l as [|c l IH]; intros k Hlen Hin.
  - destruct k; reflexivity.
  - destruct k as [|k]; [simpl in Hlen; lia|].
    simpl. destruct l as [|d l].
    + destruct (Ascii.eqb c LF); [reflexivity|]. destruct k; reflexivity.
    + destruct (Ascii.eqb c LF) eqn:Ec.
      * apply Ascii.eqb_eq in Ec. subst c. exfalso. apply Hin. left.
        reflexivity.
      * rewrite IH; [reflexivity | simpl in *; lia |].
        intros H. apply Hin. right. exact H.
Qed.

Lemma read_lines_nil (st : state) : read_lines [] st = Ok (tt, st).
Proof. rewrite read_lines_step. reflexivity. Qed.

(** The loop over a text that ends in a line feed, followed by more text,
    is the loop over the first followed by the loop over the rest. *)
Lemma read_lines_app (pre rest : list ascii) (st : state) :
  pre = [] \/ ends_with_LF pre ->
  read_lines (pre ++ rest) st =
  match read_lines pre st with
  | Ok (_, st') => read_lines rest st'
  | Undefined => Undefined
  end.
Proof.
  remember (length pre) as n eqn:Hn. revert pre Hn st.
  induction n as [n IH] using lt_wf_ind. intros pre -> st [-> | Hpre].
  - rewrite read_lines_nil. reflexivity.
  - destruct pre as [|c pre]; [destruct Hpre as [[|? ?] ?]; discriminate|].
    rewrite (read_lines_step ((c :: pre) ++ rest)).
    rewrite (read_lines_step (c :: pre)).
    unfold fgets. cbn [app].
    destruct (fgets_chars_app (BUFFSIZE - 1) rest Hpre) as [E Hr].
    cbn [app] in E. rewrite E.
    pose proof (fgets_chars_rest_lt 48 c pre) as Hlt.
    change (S 48) with (BUFFSIZE - 1) in Hlt.
    destruct (fgets_chars (BUFFSIZE - 1) (c :: pre)) as [buffer r].
    cbn [fst snd] in *.
    destruct (process_line buffer st) as [[[] st1]|]; [|reflexivity].
    apply (IH (length r) Hlt r eq_refl st1 Hr).
Qed.

(** The loop over a single short line is one run of the loop body. *)
Lemma read_lines_single (l : list ascii) (st : state) :
  l <> [] -> length l < BUFFSIZE -> ~ In LF (removelast l) ->
  read_lines l st =
  match process_line l st with
  | Ok (_, st') => Ok (tt, st')
  | Undefined => Undefined
  end.
Proof.
  intros Hne Hlen Hin. rewrite read_lines_step.
  destruct l as [|c l]; [contradiction|]. unfold fgets.
  rewrite fgets_chars_short; [| unfold BUFFSIZE in *; lia | assumption].
  destruct (process_line (c :: l) st) as [[[] st1]|]; [|reflexivity].
  apply read_lines_nil.
Qed.

(** ** Tokens *)

Lemma is_delim_space (c : ascii) :
  is_delim (str " ") c = Ascii.eqb c " ".
Proof. unfold is_delim. simpl. apply orb_false_r. Qed.

Lemma skip_delims_spaces (pad s : list ascii) :
  Forall (eq " "%char) pad ->
  skip_delims (str " ") (pad ++ s) = skip_delims (str " ") s.
Proof.
  induction 1 as [|x pad Hx _ IH]; [reflexivity|].
  subst x. cbn [app skip_delims]. rewrite is_delim_space. exact IH.
Qed.

Lemma skip_delims_word (c : ascii) (s : list ascii) :
  c <> " "%char -> skip_delims (str " ") (c :: s) = c :: s.
Proof.
  intros Hc. cbn [skip_delims]. rewrite is_delim_space.
  apply Ascii.eqb_neq in Hc. rewrite Hc. reflexivity.
Qed.

Lemma scan_token_app (tok s : list ascii) :
  Forall (fun c => c <> " "%char /\ c <> NUL) tok ->
  scan_token (str " ") (tok ++ s) =
  (tok ++ fst (scan_token (str " ") s), snd (scan_token (str " ") s)).
Proof.
  induction 1 as [|c tok [Hc _] _ IH].
  - cbn [app]. destruct (scan_token (str " ") s). reflexivity.
  - cbn [app scan_token]. rewrite is_delim_space.
    apply Ascii.eqb_neq in Hc. rewrite Hc, IH. reflexivity.
Qed.

Lemma scan_token_spaces (pad : list ascii) :
  Forall (eq " "%char) pad ->
  scan_token (str " ") pad = ([], tl pad).
Proof.
  intros [|x pad' Hx _]; [reflexivity|]. subst x. reflexivity.
Qed.

Lemma strtok_spaces (pad : list ascii) :
  Forall (eq " "%char) pad -> strtok pad (str " ") = None.
Proof.
  intros H. unfold strtok. rewrite <- (app_nil_r pad).
  rewrite skip_delims_spaces by assumption. reflexivity.
Qed.

(** A word followed by nothing or by spaces is one token; the saved
    position holds spaces only. *)
Lemma strtok_word (lead tok pad : list ascii) :
  Forall (eq " "%char) lead ->
  Forall (eq " "%char) pad ->
  tok <> [] ->
  Forall (fun c => c <> " "%char /\ c <> NUL) tok ->
  strtok (lead ++ tok ++ pad) (str " ") = Some (tok, tl pad).
Proof.
  intros Hlead Hpad Hne Htok. unfold strtok.
  rewrite skip_delims_spaces by assumption.
  destruct tok as [|c tok]; [contradiction|].
  cbn [app]. rewrite skip_delims_word by (inversion Htok; tauto).
  change (c :: tok ++ pad) with ((c :: tok) ++ pad).
  rewrite scan_token_app by assumption.
  rewrite scan_token_spaces by assumption. cbn [fst snd].
  rewrite app_nil_r. reflexivity.
Qed.

Lemma c_str_no_nul (s : list ascii) :
  Forall (fun c => c <> NUL) s -> c_str s = s.
Proof.
  induction 1 as [|c s Hc _ IH]; [reflexivity|].
  simpl. apply Ascii.eqb_neq in Hc. rewrite Hc, IH. reflexivity.
Qed.

(** ** Lines *)

(** A line without NUL, with any last character: the loop body applies
    the line without that character. *)
Lemma process_line_terminated (line : list ascii) (x : ascii) :
  Forall (fun c => c <> NUL) line -> x <> NUL ->
  process_line (line ++ [x]) = apply_line line.
Proof.
  intros Hline Hx. unfold process_line.
  rewrite c_str_no_nul by (apply Forall_app; split; auto).
  destruct (line ++ [x]) as [|c cs] eqn:E.
  - destruct line; discriminate.
  - rewrite <- E. rewrite removelast_last. reflexivity.
Qed.

Lemma apply_line_valueless (line : list ascii) (st : state) :
  valueless_line line -> apply_line line st = Ok (tt, st).
Proof.
  intros [|body|lead tok pad Hlead Hpad Hne Htok]; unfold apply_line.
  - reflexivity.
  - reflexivity.
  - destruct (0 <? strlen (lead ++ tok ++ pad)); [|reflexivity].
    destruct (negb _); [|reflexivity].
    rewrite strtok_word by assumption.
    assert (Hsaved : strtok (tl pad) (str " ") = None).
    { apply strtok_spaces. destruct Hpad; simpl; auto. }
    rewrite Hsaved.
    destruct (streq _ _); [reflexivity|].
    destruct (streq _ _); reflexivity.
Qed.

Lemma process_line_valueless (line : list ascii) (st : state) :
  valueless_line line -> process_line (line ++ [LF]) st = Ok (tt, st).
Proof.
  intros H. destruct H as [|body|lead tok pad Hlead Hpad Hne Htok].
  - reflexivity.
  - unfold process_line. cbn [app c_str].
    change (Ascii.eqb "#" NUL) with false. cbv beta match.
    destruct (c_str (body ++ [LF])) as [|y x]; [reflexivity|].
    change (removelast ("#"%char :: y :: x))
      with ("#"%char :: removelast (y :: x)).
    apply apply_line_valueless. constructor.
  - rewrite process_line_terminated.
    + apply apply_line_valueless. constructor; assumption.
    + rewrite !Forall_app. repeat split.
      * eapply Forall_impl; [|exact Hlead]. intros a <-. discriminate.
      * eapply Forall_impl; [|exact Htok]. intros a [_ Ha]. exact Ha.
      * eapply Forall_impl; [|exact Hpad]. intros a <-. discriminate.
    + discriminate.
Qed.

(** The text of a file made of the given lines, each closed by a line
    feed, is read back line by line. *)
Lemma read_lines_cons (line : list ascii) (rest : list ascii) (st : state) :
  ~ In LF line -> length line + 1 < BUFFSIZE ->
  read_lines ((line ++ [LF]) ++ rest) st =
  match process_line (line ++ [LF]) st with
  | Ok (_, st') => read_lines rest st'
  | Undefined => Undefined
  end.
Proof.
  intros Hin Hlen.
  rewrite read_lines_app by (right; exists line; reflexivity).
  rewrite read_lines_single.
  - destruct (process_line (line ++ [LF]) st) as [[[] st']|]; reflexivity.
  - destruct line; discriminate.
  - rewrite length_app. simpl. lia.
  - rewrite removelast_last. exact Hin.
Qed.

Lemma read_lines_valueless (lines : list (list ascii)) (st : state) :
  Forall valueless_line lines ->
  Forall (fun l => ~ In LF l /\ length l + 1 < BUFFSIZE) lines ->
  read_lines (concat (map (fun l => l ++ [LF]) lines)) st = Ok (tt, st).
Proof.
  induction 1 as [|l lines Hl _ IH]; intros Hshape.
  - apply read_lines_nil.
  - inversion Hshape as [|? ? [Hin Hlen] Hrest]; subst.
    cbn [map concat]. rewrite read_lines_cons by assumption.
    rewrite process_line_valueless by assumption. apply IH. assumption.
Qed.

(** ** A source that names no value *)

(** C5, as the code has it. Take a settings file that opens and in which
    no line names a value: every line is closed by a line feed, has at
    most 48 characters before it, and is empty, or starts with #, or is a
    single word without NUL (a label with nothing after it, say) with
    optional spaces around it.  Then [readSettings] completes and leaves both buffers as
    they were before the call: the defaults are not stored on this path.
    In [main], where the buffers are still zeroed when [readSettings] is
    called, the outcome is an empty broker address and an empty topic. *)
Theorem valueless_source_keeps_buffers (w : world) (st : state)
    (lines : list (list ascii)) :
  length (settings_path st) < BUFFSIZE ->
  Forall valueless_line lines ->
  Forall (fun l => ~ In LF l /\ length l + 1 < BUFFSIZE) lines ->
  fopen w (settings_path st)
    = Some (concat (map (fun l => l ++ [LF]) lines)) ->
  exists st',
    readSettings w st = Ok (true, st')
    /\ g_Topic st' = g_Topic st
    /\ g_Broker st' = g_Broker st
    /\ ((exec parseWorkingDir (argv0 w) ; displayHeader) initial_state
          = Ok (tt, st) ->
        session_config st' = ([], [])
        /\ session_config st' <> (str "192.168.0.1", str "relays")).
Proof.
  intros Hfit Hval Hshape Hopen.
  rewrite (readSettings_opens w st Hfit Hopen).
  rewrite read_lines_valueless by assumption.
  eexists. split; [reflexivity|]. split; [reflexivity|].
  split; [reflexivity|].
  intros Hpre. unfold bind in Hpre.
  destruct (parseWorkingDir (argv0 w) initial_state) as [[[] st1]|] eqn:E1;
    [|discriminate].
  apply parseWorkingDir_run in E1. destruct E1 as (_ & Ht & Hb).
  destruct (displayHeader_run st1) as (out & Hrun & _).
  rewrite Hrun in Hpre. injection Hpre as <-.
  unfold session_config. cbn [g_Topic g_Broker add_trace].
  rewrite Ht, Hb. split; [reflexivity|discriminate].
Qed.

Lemma valueless_source_keeps_buffers_witness :
  exists st st',
    (exec parseWorkingDir
            (argv0 (sample_world
                      (Some (concat (map (fun l => l ++ [LF])
                                         [str "# comment"; [];
                                          str "TOPIC  "]))) 0)) ;
     displayHeader) initial_state = Ok (tt, st)
    /\ readSettings
         (sample_world (Some (concat (map (fun l => l ++ [LF])
                                          [str "# comment"; [];
                                           str "TOPIC  "]))) 0)
         st = Ok (true, st')
    /\ session_config st' = ([], []).
Proof.
  destruct ((exec parseWorkingDir
                    (argv0 (sample_world
                              (Some (concat (map (fun l => l ++ [LF])
                                                 [str "# comment"; [];
                                                  str "TOPIC  "]))) 0)) ;
             displayHeader) initial_state) as [[[] st]|] eqn:Hpre;
    [|vm_compute in Hpre; discriminate].
  destruct (@valueless_source_keeps_buffers
              (sample_world (Some (concat (map (fun l => l ++ [LF])
                                               [str "# comment"; [];
                                                str "TOPIC  "]))) 0)
              st [str "# comment"; []; str "TOPIC  "])
    as (st' & Hrun & _ & _ & Hmain).
  - vm_compute in Hpre. injection Hpre as <-. vm_compute. lia.
  - repeat constructor.
    apply (@vl_label [] (str "TOPIC") (str "  ")).
    + constructor.
    + repeat constructor.
    + discriminate.
    + repeat constructor; discriminate.
  - repeat constructor; try (vm_compute; lia).
    all: simpl; intros H; repeat destruct H as [H|H]; try discriminate H;
      contradiction.
  - vm_compute in Hpre. injection Hpre as <-. reflexivity.
  - exists st, st'. split; [reflexivity|]. split; [exact Hrun|].
    exact (proj1 (Hmain Hpre)).
Defined.

(** C5 does not hold as stated: with a settings file that opens and holds
    one comment line, the program resolves to an empty broker address and
    an empty topic, not to 192.168.0.1 and relays. *)
Lemma comment_only_source_not_defaults :
  exists st',
    readSettings (sample_world (Some (str "# comment" ++ [LF])) 0)
                 (set_WorkingDir (str "/home/pi/") initial_state)
      = Ok (true, st')
    /\ session_config st' = ([], [])
    /\ session_config st' <> (str "192.168.0.1", str "relays")
    /\ exists rc st2,
         main (sample_world (Some (str "# comment" ++ [LF])) 0) initial_state
           = Ok (rc, st2)
         /\ In (MosquittoConnect [] 1883 60) (trace st2).
Proof.
  eexists. split; [vm_compute; reflexivity|].
  split; [reflexivity|]. split; [discriminate|].
  eexists _, _. split; [vm_compute; reflexivity|].
  simpl. repeat (try (left; reflexivity); right).
Qed.

(** ** The last character of a line *)

(** A recognised label, one space and a word: the word is stored. *)
Lemma apply_line_setting (topic : bool) (v : list ascii) (st : state) :
  v <> [] ->
  Forall (fun c => c <> " "%char /\ c <> NUL) v ->
  apply_line (label_text topic ++ v) st =
  strcpy_into (if topic then set_Topic else set_Broker) v st.
Proof.
  intros Hne Hv.
  assert (Hval : strtok v (str " ") = Some (v, [])).
  { pose proof (@strtok_word [] v [] (Forall_nil _) (Forall_nil _) Hne Hv)
      as H. cbn [app tl] in H. rewrite app_nil_r in H. exact H. }
  unfold apply_line.
  destruct topic; unfold label_text.
  - replace (0 <? strlen (str "TOPIC " ++ v)) with true by reflexivity.
    replace (negb (Ascii.eqb (hd NUL (str "TOPIC " ++ v)) "#")) with true
      by reflexivity.
    replace (strtok (str "TOPIC " ++ v) (str " "))
      with (Some (str "TOPIC", v)) by reflexivity.
    replace (streq (map toupper (str "TOPIC")) (str "TOPIC")) with true
      by reflexivity.
    rewrite Hval. reflexivity.
  - replace (0 <? strlen (str "BROKER " ++ v)) with true by reflexivity.
    replace (negb (Ascii.eqb (hd NUL (str "BROKER " ++ v)) "#")) with true
      by reflexivity.
    replace (strtok (str "BROKER " ++ v) (str " "))
      with (Some (str "BROKER", v)) by reflexivity.
    replace (streq (map toupper (str "BROKER")) (str "TOPIC")) with false
      by reflexivity.
    replace (streq (map toupper (str "BROKER")) (str "BROKER")) with true
      by reflexivity.
    rewrite Hval. reflexivity.
Qed.

(** Whatever the last character of the string in the buffer is, it plays
    no part in what the loop body does. *)
Lemma c_str_last_irrelevant (buffer : list ascii) (x y : ascii) :
  x <> NUL -> y <> NUL ->
  (c_str (buffer ++ [x]) = [] /\ c_str (buffer ++ [y]) = []) \/
  (c_str (buffer ++ [x]) <> [] /\ c_str (buffer ++ [y]) <> [] /\
   removelast (c_str (buffer ++ [x])) = removelast (c_str (buffer ++ [y]))).
Proof.
  intros Hx Hy. apply Ascii.eqb_neq in Hx, Hy.
  induction buffer as [|a b IH].
  - right. simpl. rewrite Hx, Hy. repeat split; discriminate.
  - cbn [app c_str]. destruct (Ascii.eqb a NUL); [left; auto|].
    right. split; [discriminate|]. split; [discriminate|].
    destruct IH as [[-> ->] | (Hnx & Hny & Heq)]; [reflexivity|].
    destruct (c_str (b ++ [x])) as [|x1 X]; [contradiction|].
    destruct (c_str (b ++ [y])) as [|y1 Y]; [contradiction|].
    change (a :: removelast (x1 :: X) = a :: removelast (y1 :: Y)).
    rewrite Heq. reflexivity.
Qed.

Lemma process_line_last_irrelevant (buffer : list ascii) (x y : ascii)
    (st : state) :
  x <> NUL -> y <> NUL ->
  process_line (buffer ++ [x]) st = process_line (buffer ++ [y]) st.
Proof.
  intros Hx Hy. unfold process_line.
  destruct (c_str_last_irrelevant buffer Hx Hy)
    as [[-> ->] | (Hnx & Hny & Heq)]; [reflexivity|].
  destruct (c_str (buffer ++ [x])) as [|x1 X]; [contradiction|].
  destruct (c_str (buffer ++ [y])) as [|y1 Y]; [contradiction|].
  rewrite Heq. reflexivity.
Qed.

(** C10. The loop body cuts the last character off every string [fgets]
    delivers, whatever that character is.  So when the file ends in a line
    "TOPIC v" or "BROKER v" that no line feed closes, the last character
    of the value is lost: with the value written [v ++ [c]], the field is
    set to [v]. *)
Theorem final_line_loses_last_char (w : world) (st st1 : state)
    (pre v : list ascii) (c : ascii) (topic : bool) :
  length (settings_path st) < BUFFSIZE ->
  fopen w (settings_path st) = Some (pre ++ label_text topic ++ v ++ [c]) ->
  pre = [] \/ ends_with_LF pre ->
  read_lines pre st = Ok (tt, st1) ->
  v <> [] ->
  Forall (fun x => x <> " "%char /\ x <> NUL) v ->
  ~ In LF v ->
  c <> NUL -> c <> LF ->
  length (label_text topic ++ v ++ [c]) < BUFFSIZE ->
  (exists st', readSettings w st = Ok (true, st') /\ field topic st' = v
               /\ field (negb topic) st' = field (negb topic) st1)
  /\ (forall buffer x y st0,
        x <> NUL -> y <> NUL ->
        process_line (buffer ++ [x]) st0 = process_line (buffer ++ [y]) st0).
Proof.
  intros Hfit Hopen Hpre Hrun Hne Hv Hlf Hc0 Hclf Hlen.
  split; [|intros; apply process_line_last_irrelevant; assumption].
  rewrite (readSettings_opens w st Hfit Hopen).
  rewrite read_lines_app, Hrun by assumption.
  assert (Hlabel_nul : Forall (fun x => x <> NUL) (label_text topic)).
  { destruct topic; repeat constructor; discriminate. }
  assert (Hlabel_lf : ~ In LF (label_text topic)).
  { destruct topic; simpl; intros H;
      repeat destruct H as [H|H]; try discriminate H; contradiction. }
  assert (Hline : label_text topic ++ v ++ [c]
                  = (label_text topic ++ v) ++ [c])
    by (rewrite app_assoc; reflexivity).
  rewrite read_lines_single.
  - rewrite Hline, process_line_terminated, apply_line_setting;
      try assumption.
    + unfold strcpy_into.
      assert (Hv_len : (length v <? BUFFSIZE) = true).
      { apply Nat.ltb_lt. rewrite !length_app in Hlen. lia. }
      rewrite Hv_len. eexists. split; [reflexivity|].
      destruct topic; split; reflexivity.
    + apply Forall_app. split; [assumption|].
      eapply Forall_impl; [|exact Hv]. intros a [_ Ha]. exact Ha.
  - destruct topic; discriminate.
  - assumption.
  - rewrite Hline, removelast_last. intros H.
    apply in_app_or in H. tauto.
Qed.

Lemma final_line_loses_last_char_witness :
  exists st',
    readSettings (sample_world (Some (str "BROKER 10.0.0.5")) 0)
                 (set_WorkingDir (str "/home/pi/") initial_state)
      = Ok (true, st')
    /\ g_Broker st' = str "10.0.0.".
Proof.
  destruct (@final_line_loses_last_char
              (sample_world (Some (str "BROKER 10.0.0.5")) 0)
              (set_WorkingDir (str "/home/pi/") initial_state)
              (set_WorkingDir (str "/home/pi/") initial_state)
              [] (str "10.0.0.") "5"%char false) as [(st' & Hrun & Hv & _) _].
  - vm_compute. lia.
  - reflexivity.
  - left. reflexivity.
  - vm_compute. reflexivity.
  - discriminate.
  - repeat constructor; discriminate.
  - simpl. intros H. repeat destruct H as [H|H]; try discriminate H.
    contradiction.
  - discriminate.
  - discriminate.
  - vm_compute. lia.
  - exists st'. split; assumption.
Defined.

(** ** Worked scenarios *)

Example payload_1_1 :
  on_message false [1; 1]%Z
  = ([0; 1]%Z,
     [Printf "[%d] " [ArgInt 1]; Printf "[%d] " [ArgInt 1]; Printf "\n" [];
      DigitalWrite 0 LOW]).
Proof. reflexivity. Qed.

Example payload_16_0 :
  pin_writes (snd (on_message false [16; 0]%Z)) = [(15%Z, HIGH)].
Proof. reflexivity. Qed.

Example payload_signed_log :
  snd (on_message true [17; 200]%Z)
  = [Printf "[%d] " [ArgInt 17]; Printf "[%d] " [ArgInt (-56)];
     Printf "\n" []].
Proof. reflexivity. Qed.

Example settings_both_labels :
  resolved
    (readSettings
       (sample_world
          (Some (str "TOPIC office/relays" ++ [LF]
                 ++ str "BROKER 10.0.0.5" ++ [LF])) 0)
       (set_WorkingDir (str "/home/pi/") initial_state))
  = Some (true, (str "10.0.0.5", str "office/relays")).
Proof. vm_compute. reflexivity. Qed.

Example settings_twice :
  resolved
    ((exec readSettings
             (sample_world (Some (str "broker  10.0.0.5 x" ++ [LF])) 0) ;
      readSettings
        (sample_world (Some (str "broker  10.0.0.5 x" ++ [LF])) 0))
       (set_WorkingDir (str "/home/pi/") initial_state))
  = Some (true, (str "10.0.0.5", [])).
Proof. vm_compute. reflexivity. Qed.

(** A line of spaces makes [strtok] return NULL, which [strlen] then
    dereferences. *)
Example settings_line_of_spaces :
  readSettings (sample_world (Some (str "   " ++ [LF])) 0)
               (set_WorkingDir (str "/home/pi/") initial_state)
  = Undefined.
Proof. vm_compute. reflexivity. Qed.

Example working_dir_of_argv0 :
  parseWorkingDir (str "/home/pi/relay") initial_state
  = Ok (tt, set_WorkingDir (str "/home/pi/") initial_state).
Proof. reflexivity. Qed.

(** * Further properties *)

(** ** The session callbacks *)

(** X1. Whatever the connect result and whatever [mosquitto_subscribe]
    returns, [on_connect] sends exactly one subscribe, for [g_Topic] with
    QoS 1.  After a refused connection the subscribe is still sent, right
    after the disconnect.  It disconnects once for a refused connection
    and once more for a failed subscribe. *)
Theorem on_connect_always_subscribes (success reason_code subscribe_rc : Z)
    (st : state) :
  filter is_subscribe (on_connect success reason_code subscribe_rc st)
    = [MosquittoSubscribe (g_Topic st) 1]
  /\ (reason_code <> 0%Z ->
      exists post,
        on_connect success reason_code subscribe_rc st
        = [SessionPrintf "on_connect: %s\n" [SConnack reason_code];
           MosquittoDisconnect;
           MosquittoSubscribe (g_Topic st) 1] ++ post)
  /\ length (filter is_disconnect
                (on_connect success reason_code subscribe_rc st))
     = (if (reason_code =? 0)%Z then 0 else 1)
       + (if (subscribe_rc =? success)%Z then 0 else 1).
Proof.
  unfold on_connect. split; [|split].
  - destruct (negb (reason_code =? 0)%Z),
             (negb (subscribe_rc =? success)%Z); reflexivity.
  - intros Hr. apply Z.eqb_neq in Hr. rewrite Hr. simpl. eexists.
    reflexivity.
  - destruct (reason_code =? 0)%Z, (subscribe_rc =? success)%Z;
      reflexivity.
Qed.

Lemma on_connect_always_subscribes_witness :
  exists post,
    on_connect 0 5 0 initial_state
    = [SessionPrintf "on_connect: %s\n" [SConnack 5];
       MosquittoDisconnect;
       MosquittoSubscribe [] 1] ++ post.
Proof.
  apply (proj1 (proj2 (on_connect_always_subscribes 0 5 0 initial_state))).
  discriminate.
Defined.

Lemma on_subscribe_loop_run (k : nat) (granted_qos : list Z) (have : bool) :
  on_subscribe_loop (Z.of_nat k) granted_qos have
  = (map (fun iq => SessionPrintf "on_subscribe: %d:granted qos = %d\n"
                      [SInt (Z.of_nat (fst iq)); SInt (snd iq)])
         (combine (seq k (length granted_qos)) granted_qos),
     have || existsb (fun q => (q <=? 2)%Z) granted_qos).
Proof.
  revert k have. induction granted_qos as [|q g IH]; intros k have.
  - simpl. rewrite orb_false_r. reflexivity.
  - cbn [on_subscribe_loop].
    replace (Z.of_nat k + 1)%Z with (Z.of_nat (S k)) by lia.
    rewrite IH. cbn [length seq combine map existsb fst snd].
    f_equal. destruct (q <=? 2)%Z, have; reflexivity.
Qed.

Lemma no_granted_qos_iff (granted_qos : list Z) :
  existsb (fun q => (q <=? 2)%Z) granted_qos = false
  <-> Forall (fun q => (2 < q)%Z) granted_qos.
Proof.
  induction granted_qos as [|q g IH]; simpl.
  - split; auto.
  - rewrite orb_false_iff, Forall_cons_iff, Z.leb_gt. tauto.
Qed.

(** X2. [on_subscribe] disconnects exactly when no granted QoS is 2 or
    less (in particular when the list is empty), and then only once; a
    negative entry counts as a granted subscription. *)
Theorem on_subscribe_disconnects_iff (granted_qos : list Z) :
  (In MosquittoDisconnect (on_subscribe granted_qos)
   <-> Forall (fun q => (2 < q)%Z) granted_qos)
  /\ length (filter is_disconnect (on_subscribe granted_qos)) <= 1.
Proof.
  rewrite <- no_granted_qos_iff.
  unfold on_subscribe. rewrite (on_subscribe_loop_run 0). cbn [orb].
  set (log := map _ _).
  assert (Hlog : filter is_disconnect log = []).
  { subst log. generalize (combine (seq 0 (length granted_qos)) granted_qos).
    induction l as [|a l IH]; simpl; auto. }
  assert (Hnot : ~ In MosquittoDisconnect log).
  { intros H. assert (H' : In MosquittoDisconnect (filter is_disconnect log))
      by (apply filter_In; auto).
    rewrite Hlog in H'. exact H'. }
  rewrite filter_app, Hlog, length_app.
  destruct (existsb (fun q => (q <=? 2)%Z) granted_qos); simpl.
  - split; [|lia]. rewrite app_nil_r. split; [contradiction|discriminate].
  - split; [|lia]. split; [reflexivity|].
    intros _. apply in_or_app. right. simpl. auto.
Qed.

(** X3. [on_subscribe] prints one line per granted entry, in order, each
    with its index and its QoS, before anything else. *)
Theorem on_subscribe_logs_each_entry (granted_qos : list Z) :
  firstn (length granted_qos) (on_subscribe granted_qos)
  = map (fun iq => SessionPrintf "on_subscribe: %d:granted qos = %d\n"
                     [SInt (Z.of_nat (fst iq)); SInt (snd iq)])
        (combine (seq 0 (length granted_qos)) granted_qos).
Proof.
  unfold on_subscribe. rewrite (on_subscribe_loop_run 0).
  set (log := map _ _).
  assert (Hlen : length log = length granted_qos).
  { subst log. rewrite length_map, length_combine, length_seq. lia. }
  rewrite <- Hlen at 1. rewrite firstn_app, firstn_all, Nat.sub_diag.
  simpl. rewrite app_nil_r. reflexivity.
Qed.

(** ** More on the message callback *)

Section MoreCallbackFacts.

Local Open Scope Z_scope.

Variable cs : bool.

Lemma payload_cases (payload : list Z) :
  (exists c s, payload = [c; s] /\ 1 <= c <= 16) \/
  (length payload <> 2%nat \/
   nth 0 payload 0 <= 0 \/ 16 < nth 0 payload 0).
Proof.
  destruct (Nat.eq_dec (length payload) 2) as [Hlen|Hlen]; [|auto].
  destruct (two_bytes _ Hlen) as (c & s & ->). simpl.
  destruct (Z_le_gt_dec c 0); [auto|].
  destruct (Z_lt_le_dec 16 c); [auto|].
  left. exists c, s. split; [reflexivity|lia].
Qed.

Lemma on_message_rejected_trace (payload : list Z) :
  length payload <> 2%nat \/ nth 0 payload 0 <= 0 \/ 16 < nth 0 payload 0 ->
  snd (on_message cs payload) = payload_log cs payload.
Proof.
  intros H. unfold on_message, payload_log.
  destruct (Z.of_nat (length payload) =? 2) eqn:Elen; [|reflexivity].
  apply Z.eqb_eq in Elen. destruct H as [H|H]; [lia|].
  replace ((0 <? nth 0 payload 0) && (nth 0 payload 0 <=? 16)) with false;
    [reflexivity|].
  symmetry. apply andb_false_iff.
  destruct H; [left; apply Z.ltb_ge | right; apply Z.leb_gt]; lia.
Qed.

(** X4. For every payload, accepted or not, the events of [on_message] are
    the log of the received bytes, one [%d] per byte in order as they
    arrived (before byte 0 is decremented), a newline, and then the pin
    writes: nothing else is ever called. *)
Theorem on_message_logs_then_writes (payload : list Z) :
  snd (on_message cs payload)
  = payload_log cs payload
    ++ map (fun pv => DigitalWrite (fst pv) (snd pv))
           (pin_writes (snd (on_message cs payload))).
Proof.
  destruct (payload_cases payload) as [(c & s & -> & Hc) | Hrej].
  - rewrite on_message_in_range by assumption. reflexivity.
  - rewrite on_message_rejected_trace by assumption.
    unfold payload_log. rewrite console_no_pin_writes.
    simpl. rewrite app_nil_r. reflexivity.
Qed.

(** X5. Whatever the payload (any length, any values), [on_message] issues
    at most one pin write, and never to a pin outside 0..15. *)
Theorem on_message_writes_within_bounds (payload : list Z) :
  (length (pin_writes (snd (on_message cs payload))) <= 1)%nat
  /\ Forall (fun pv => 0 <= fst pv <= 15)
            (pin_writes (snd (on_message cs payload))).
Proof.
  destruct (payload_cases payload) as [(c & s & -> & Hc) | Hrej].
  - rewrite on_message_in_range by assumption. simpl.
    split; [lia|]. constructor; [simpl; lia|constructor].
  - destruct (on_message_rejected cs payload Hrej) as [_ ->].
    simpl. split; [lia|constructor].
Qed.

Lemma last_mode_console (pin : Z) (t : list event) :
  forallb is_console t = true -> last_mode pin t = None.
Proof.
  induction t as [|e t IH]; simpl; [reflexivity|].
  intros H. apply andb_true_iff in H. destruct H as [He Ht].
  rewrite (IH Ht). destruct e; try discriminate; reflexivity.
Qed.

Lemma last_level_console (pin : Z) (t : list event) :
  forallb is_console t = true -> last_level pin t = None.
Proof.
  induction t as [|e t IH]; simpl; [reflexivity|].
  intros H. apply andb_true_iff in H. destruct H as [He Ht].
  rewrite (IH Ht). destruct e; try discriminate; reflexivity.
Qed.

Lemma payload_log_console (payload : list Z) :
  forallb is_console (payload_log cs payload) = true.
Proof.
  unfold payload_log. rewrite forallb_app. simpl. rewrite andb_true_r.
  induction payload as [|b p IH]; simpl; auto.
Qed.

(** X6. A message never reconfigures a pin, and never changes the level of
    a pin other than the one its channel byte names: after any events [t],
    the callback leaves the mode of every pin and the level of every pin
    [p <> byte0 - 1] as [t] left them; a message that is accepted sets the
    level of pin [byte0 - 1]. *)
Theorem on_message_touches_only_its_pin (t : list event) (payload : list Z)
    (p : Z) :
  last_mode p (t ++ snd (on_message cs payload)) = last_mode p t
  /\ (p <> nth 0 payload 0 - 1 ->
      last_level p (t ++ snd (on_message cs payload)) = last_level p t)
  /\ (length payload = 2%nat -> 1 <= nth 0 payload 0 <= 16 ->
      last_level (nth 0 payload 0 - 1) (t ++ snd (on_message cs payload))
      = Some (if nth 1 payload 0 =? 0 then HIGH else LOW)).
Proof.
  rewrite last_mode_app, last_level_app.
  destruct (payload_cases payload) as [(c & s & -> & Hc) | Hrej].
  - rewrite on_message_in_range by assumption.
    split; [reflexivity|]. split.
    + intros Hp. cbn [nth] in Hp. simpl.
      replace (c - 1 =? p) with false
        by (symmetry; apply Z.eqb_neq; lia).
      reflexivity.
    + intros _ _. rewrite last_level_app. simpl.
      rewrite Z.eqb_refl. reflexivity.
  - rewrite on_message_rejected_trace by assumption.
    rewrite last_mode_console, last_level_console
      by apply payload_log_console.
    split; [reflexivity|]. split; [reflexivity|].
    intros Hlen Hc. exfalso. lia.
Qed.

(** X7. Because byte 0 is decremented in the caller's buffer, running the
    callback again on the buffer it left behind does not repeat the
    command: for channel [c] in 2..16 the second run writes pin [c - 2],
    and for channel 1 it writes nothing. *)
Theorem on_message_rerun_shifts_channel (c s : Z) :
  1 <= c <= 16 ->
  pin_writes (snd (on_message cs (fst (on_message cs [c; s]))))
  = if c =? 1 then []
    else [(c - 2, if s =? 0 then HIGH else LOW)].
Proof.
  intros Hc. rewrite on_message_in_range by assumption. cbn [fst].
  destruct (c =? 1) eqn:E.
  - apply Z.eqb_eq in E. subst c.
    apply (on_message_rejected cs [1 - 1; s]). simpl. lia.
  - apply Z.eqb_neq in E. rewrite on_message_in_range by lia.
    simpl. replace (c - 1 - 1) with (c - 2) by lia. reflexivity.
Qed.

End MoreCallbackFacts.

Lemma on_message_touches_only_its_pin_witness :
  last_level 3 ([DigitalWrite 3 LOW; DigitalWrite 4 HIGH]
                  ++ snd (on_message false [5; 1]%Z)) = Some LOW
  /\ last_level 4 ([DigitalWrite 3 LOW; DigitalWrite 4 HIGH]
                     ++ snd (on_message false [5; 1]%Z)) = Some LOW.
Proof.
  split.
  - apply (proj1 (proj2 (on_message_touches_only_its_pin
                           false [DigitalWrite 3 LOW; DigitalWrite 4 HIGH]
                           [5; 1]%Z 3))).
    simpl. lia.
  - apply (proj2 (proj2 (on_message_touches_only_its_pin
                           false [DigitalWrite 3 LOW; DigitalWrite 4 HIGH]
                           [5; 1]%Z 4))).
    + reflexivity.
    + simpl. lia.
Defined.

Lemma on_message_rerun_shifts_channel_witness :
  (1 <= 5 <= 16)%Z /\
  pin_writes (snd (on_message false (fst (on_message false [5; 0]%Z))))
  = [(3%Z, HIGH)].
Proof.
  assert (Hc : (1 <= 5 <= 16)%Z) by lia.
  split; [exact Hc|].
  apply (on_message_rerun_shifts_channel false 0 Hc).
Defined.

(** ** The working directory *)

Lemma strrchr_None (s : list ascii) (c : ascii) :
  strrchr s c = None <-> ~ In c s.
Proof.
  induction s as [|x s IH]; simpl; [tauto|].
  destruct (strrchr s c) as [i|].
  - split; [discriminate|]. intros H. exfalso.
    assert (Hs : ~ In c s) by tauto. apply IH in Hs. discriminate.
  - destruct (Ascii.eqb x c) eqn:E.
    + apply Ascii.eqb_eq in E. split; [discriminate|]. intros H.
      exfalso. apply H. auto.
    + apply Ascii.eqb_neq in E. split; [|reflexivity].
      intros _ [H|H]; [contradiction|]. apply IH in H; auto.
Qed.

Lemma strrchr_Some (s : list ascii) (c : ascii) (i : nat) :
  strrchr s c = Some i ->
  exists dir base, s = dir ++ c :: base /\ length dir = i /\ ~ In c base.
Proof.
  revert i. induction s as [|x s IH]; intros i; simpl; [discriminate|].
  destruct (strrchr s c) as [j|] eqn:E.
  - intros H. injection H as <-.
    destruct (IH j eq_refl) as (dir & base & -> & Hlen & Hbase).
    exists (x :: dir), base. simpl. auto.
  - destruct (Ascii.eqb x c) eqn:Ex; [|discriminate].
    apply Ascii.eqb_eq in Ex. subst x. intros H. injection H as <-.
    exists [], s. simpl. split; [reflexivity|]. split; [reflexivity|].
    apply strrchr_None. exact E.
Qed.

Lemma strrchr_last_slash (dir base : list ascii) (c : ascii) :
  ~ In c base -> strrchr (dir ++ c :: base) c = Some (length dir).
Proof.
  intros Hbase. induction dir as [|x dir IH]; simpl.
  - apply strrchr_None in Hbase. rewrite Hbase, Ascii.eqb_refl.
    reflexivity.
  - rewrite IH. reflexivity.
Qed.

Lemma settings_file_split (dir base : list ascii) :
  ~ In "/"%char base ->
  settings_file (dir ++ "/"%char :: base) = dir ++ str "/settings.dat".
Proof.
  intros Hbase. unfold settings_file.
  rewrite strrchr_last_slash by assumption.
  replace (dir ++ "/"%char :: base) with ((dir ++ ["/"%char]) ++ base)
    by (rewrite <- app_assoc; reflexivity).
  rewrite firstn_app.
  replace (length dir + 1 - length (dir ++ ["/"%char])) with 0
    by (rewrite length_app; simpl; lia).
  rewrite firstn_all2 by (rewrite length_app; simpl; lia).
  simpl. rewrite app_nil_r, <- app_assoc. reflexivity.
Qed.

(** What [parseWorkingDir] does to a state whose [g_WorkingDir] is still
    zeroed. *)
Lemma parseWorkingDir_zeroed (path : list ascii) (st : state) :
  g_WorkingDir st = [] ->
  parseWorkingDir path st =
  if BUFFSIZE <=? length path then Undefined
  else match strrchr path "/" with
       | Some len => Ok (tt, set_WorkingDir (firstn (len + 1) path) st)
       | None => Ok (tt, st)
       end.
Proof.
  intros Hz. unfold parseWorkingDir, undefined, ret.
  destruct (BUFFSIZE <=? length path); [reflexivity|].
  destruct (strrchr path "/") as [len|] eqn:E; [|reflexivity].
  rewrite Hz. unfold strncpy.
  destruct (strrchr_Some _ _ E) as (dir & base & -> & Hlen & _).
  replace (len + 1 <=? length (dir ++ "/"%char :: base)) with true.
  - destruct (len + 1); simpl; rewrite ?app_nil_r; reflexivity.
  - symmetry. apply Nat.leb_le. rewrite length_app. simpl. lia.
Qed.

(** X8. For an [argv[0]] that fits the local buffer and holds a slash,
    [parseWorkingDir] on the zeroed buffer stores everything up to and
    including the last slash: the path is the stored directory followed by
    a file name without slash. *)
Theorem parseWorkingDir_keeps_directory (path : list ascii) (st : state) :
  length path < BUFFSIZE ->
  g_WorkingDir st = [] ->
  In "/"%char path ->
  exists dir base,
    path = dir ++ "/"%char :: base
    /\ ~ In "/"%char base
    /\ parseWorkingDir path st
       = Ok (tt, set_WorkingDir (dir ++ ["/"%char]) st).
Proof.
  intros Hlen Hz Hin. rewrite parseWorkingDir_zeroed by assumption.
  apply Nat.leb_gt in Hlen. rewrite Hlen.
  destruct (strrchr path "/") as [len|] eqn:E.
  - destruct (strrchr_Some _ _ E) as (dir & base & -> & Hdir & Hbase).
    exists dir, base. split; [reflexivity|]. split; [assumption|].
    replace (dir ++ "/"%char :: base) with ((dir ++ ["/"%char]) ++ base)
      by (rewrite <- app_assoc; reflexivity).
    rewrite firstn_app.
    replace (len + 1 - length (dir ++ ["/"%char])) with 0
      by (rewrite length_app; simpl; lia).
    rewrite firstn_all2 by (rewrite length_app; simpl; lia).
    simpl. rewrite app_nil_r. reflexivity.
  - apply strrchr_None in E. contradiction.
Qed.

Lemma parseWorkingDir_keeps_directory_witness :
  exists dir base,
    str "/home/pi/bin/relay" = dir ++ "/"%char :: base
    /\ ~ In "/"%char base
    /\ parseWorkingDir (str "/home/pi/bin/relay") initial_state
       = Ok (tt, set_WorkingDir (dir ++ ["/"%char]) initial_state).
Proof.
  apply (@parseWorkingDir_keeps_directory (str "/home/pi/bin/relay")
                                          initial_state).
  - vm_compute. lia.
  - reflexivity.
  - simpl. auto.
Defined.

(** X9. For an [argv[0]] without any slash (the program found through
    PATH), [parseWorkingDir] changes nothing, so the settings file is
    looked for under the bare name settings.dat. *)
Theorem parseWorkingDir_without_slash (path : list ascii) (st : state) :
  length path < BUFFSIZE ->
  ~ In "/"%char path ->
  parseWorkingDir path st = Ok (tt, st)
  /\ settings_file path = str "settings.dat".
Proof.
  intros Hlen Hin. apply strrchr_None in Hin.
  unfold parseWorkingDir, settings_file, ret. rewrite Hin.
  apply Nat.leb_gt in Hlen. rewrite Hlen. auto.
Qed.

Lemma parseWorkingDir_without_slash_witness :
  parseWorkingDir (str "relay") initial_state = Ok (tt, initial_state)
  /\ settings_file (str "relay") = str "settings.dat".
Proof.
  apply (@parseWorkingDir_without_slash (str "relay") initial_state).
  - vm_compute. lia.
  - simpl. intros H. repeat destruct H as [H|H]; try discriminate H.
    contradiction.
Defined.

(** ** More on start-up *)

Lemma readSettings_ext (w1 w2 : world) (st : state) :
  fopen w1 (settings_path st) = fopen w2 (settings_path st) ->
  readSettings w1 st = readSettings w2 st.
Proof.
  intros H. unfold readSettings, bind, gets. cbv beta match.
  unfold settings_path in H. rewrite H. reflexivity.
Qed.

(** The state in which [main] calls [readSettings]. *)
Lemma main_before_settings (path : list ascii) :
  length path < BUFFSIZE ->
  exists st2,
    (exec parseWorkingDir path ; displayHeader) initial_state = Ok (tt, st2)
    /\ settings_path st2 = settings_file path
    /\ g_Topic st2 = [] /\ g_Broker st2 = []
    /\ forallb is_console (trace st2) = true.
Proof.
  intros Hlen. unfold bind.
  rewrite parseWorkingDir_zeroed by reflexivity.
  apply Nat.leb_gt in Hlen. rewrite Hlen.
  unfold settings_file.
  destruct (strrchr path "/") as [len|].
  - destruct (displayHeader_run
                (set_WorkingDir (firstn (len + 1) path) initial_state))
      as (out & -> & Hout).
    eexists. split; [reflexivity|]. repeat split. exact Hout.
  - destruct (displayHeader_run initial_state) as (out & -> & Hout).
    eexists. split; [reflexivity|]. repeat split. exact Hout.
Qed.

Lemma main_from_settings (w : world) (st2 : state) :
  (exec parseWorkingDir (argv0 w) ; displayHeader) initial_state
    = Ok (tt, st2) ->
  main w initial_state =
  match readSettings w st2 with
  | Ok (_, st3) =>
      Ok (exit_status w, add_trace (startup_events w (g_Broker st3)) st3)
  | Undefined => Undefined
  end.
Proof.
  rewrite main_run. unfold bind.
  destruct (parseWorkingDir (argv0 w) initial_state) as [[[] st1]|];
    [|discriminate].
  intros ->. reflexivity.
Qed.

Lemma main_path_too_long (w : world) :
  BUFFSIZE <= length (argv0 w) -> main w initial_state = Undefined.
Proof.
  intros H. rewrite main_run, parseWorkingDir_zeroed by reflexivity.
  apply Nat.leb_le in H. rewrite H. reflexivity.
Qed.

(** X10. Of the whole file system, [main] consults one name only, the
    file settings.dat in the directory part of [argv[0]]: two environments
    that agree on that file (and on the library results) give the same
    run. *)
Theorem main_reads_only_its_settings_file (w1 w2 : world) :
  argv0 w1 = argv0 w2 ->
  wiringPiSetup_rc w1 = wiringPiSetup_rc w2 ->
  mosquitto_new_ok w1 = mosquitto_new_ok w2 ->
  mosquitto_connect_rc w1 = mosquitto_connect_rc w2 ->
  fopen w1 (settings_file (argv0 w1)) = fopen w2 (settings_file (argv0 w1)) ->
  main w1 initial_state = main w2 initial_state.
Proof.
  intros Hargv Hrc Hnew Hconn Hopen.
  destruct (le_lt_dec BUFFSIZE (length (argv0 w1))) as [Hlong|Hfit].
  - rewrite !main_path_too_long; [reflexivity | rewrite <- Hargv |];
      assumption.
  - destruct (@main_before_settings _ Hfit) as (st2 & Hpre & Hpath & _).
    rewrite (@main_from_settings w1 st2 Hpre).
    rewrite Hargv in Hpre. rewrite (@main_from_settings w2 st2 Hpre).
    rewrite <- Hpath in Hopen. rewrite (@readSettings_ext w1 w2 st2 Hopen).
    unfold exit_status, startup_events. rewrite Hrc, Hnew, Hconn.
    reflexivity.
Qed.

Lemma main_reads_only_its_settings_file_witness :
  main (sample_world (Some (str "TOPIC a")) 0) initial_state
  = main {| argv0 := str "/home/pi/relay";
            fopen := fun _ => Some (str "TOPIC a");
            wiringPiSetup_rc := 0;
            mosquitto_new_ok := true;
            mosquitto_connect_rc := 0 |} initial_state.
Proof.
  apply main_reads_only_its_settings_file; reflexivity.
Defined.

(** X11. [main] leaves defined behaviour in exactly three ways: [argv[0]]
    does not fit the 50-byte buffer of [parseWorkingDir]; the directory
    part followed by settings.dat does not fit the 50-byte [filename]
    (a directory part of 38 characters or more); or the settings file
    opens and reading it goes wrong. *)
Theorem main_undefined_iff (w : world) :
  main w initial_state = Undefined <->
  BUFFSIZE <= length (argv0 w)
  \/ BUFFSIZE <= length (settings_file (argv0 w))
  \/ exists stream,
       fopen w (settings_file (argv0 w)) = Some stream
       /\ read_lines stream initial_state = Undefined.
Proof.
  destruct (le_lt_dec BUFFSIZE (length (argv0 w))) as [Hlong|Hfit].
  { rewrite main_path_too_long by assumption. tauto. }
  destruct (@main_before_settings _ Hfit) as (st2 & Hpre & Hpath & _).
  rewrite (@main_from_settings w st2 Hpre). rewrite <- Hpath.
  destruct (le_lt_dec BUFFSIZE (length (settings_path st2))) as [Hp|Hp].
  { rewrite readSettings_path_too_long by assumption. tauto. }
  destruct (fopen w (settings_path st2)) as [stream|] eqn:Hopen.
  - rewrite (readSettings_opens w st2 Hp Hopen).
    destruct (read_lines_uniform stream) as [Hu | (t & b & Hrun)].
    + rewrite Hu. split; [|reflexivity]. intros _. right. right.
      exists stream. auto.
    + rewrite Hrun. split; [discriminate|].
      intros [H|[H|(s & Hs & Hbad)]]; try lia.
      injection Hs as <-. rewrite Hrun in Hbad. discriminate.
  - rewrite (readSettings_open_fails w st2 Hp Hopen).
    split; [discriminate|].
    intros [H|[H|(s & Hs & _)]]; try lia. discriminate.
Qed.

Lemma main_undefined_iff_witness :
  main {| argv0 := str "/home/pi/projects/relay-controller/bin/relay";
          fopen := fun _ => None;
          wiringPiSetup_rc := 0;
          mosquitto_new_ok := true;
          mosquitto_connect_rc := 0 |} initial_state = Undefined.
Proof.
  apply main_undefined_iff. right. left. vm_compute. lia.
Defined.

(** X12. When [main] completes, its exit status is 0 if the client was
    created and the connect call succeeded, and 1 otherwise; a settings
    file that is missing or a failed [wiringPiSetup] does not change it. *)
Theorem main_exit_status (w : world) (rc : Z) (st' : state) :
  main w initial_state = Ok (rc, st') ->
  (rc = 0%Z /\ mosquitto_new_ok w = true /\ mosquitto_connect_rc w = 0%Z)
  \/ (rc = 1%Z /\
      (mosquitto_new_ok w = false \/ mosquitto_connect_rc w <> 0%Z)).
Proof.
  rewrite main_run.
  destruct (parseWorkingDir (argv0 w) initial_state) as [[[] st1]|];
    [|discriminate].
  destruct (displayHeader st1) as [[[] st2]|]; [|discriminate].
  destruct (readSettings w st2) as [[b st3]|]; [|discriminate].
  intros H. injection H as <- _. unfold exit_status.
  destruct (mosquitto_new_ok w); [|right; auto].
  destruct (mosquitto_connect_rc w =? 0)%Z eqn:E; simpl.
  - apply Z.eqb_eq in E. left. auto.
  - apply Z.eqb_neq in E. right. auto.
Qed.

Lemma main_exit_status_witness :
  exists st',
    main (sample_world None 0) initial_state = Ok (0%Z, st')
    /\ mosquitto_new_ok (sample_world None 0) = true.
Proof.
  destruct (main (sample_world None 0) initial_state) as [[rc st']|] eqn:E;
    [|vm_compute in E; discriminate].
  destruct (@main_exit_status _ _ _ E) as [(-> & Hnew & _) | (_ & [H|H])].
  - exists st'. split; [reflexivity|exact Hnew].
  - discriminate H.
  - exfalso. apply H. reflexivity.
Defined.

Lemma pin_writes_console (t : list event) :
  forallb is_console t = true -> pin_writes t = [].
Proof.
  induction t as [|e t IH]; simpl; [reflexivity|].
  intros H. apply andb_true_iff in H. destruct H as [He Ht].
  destruct e; try discriminate. auto.
Qed.

Lemma in_after_console (console t : list event) (e : event) :
  forallb is_console console = true ->
  is_console e = false ->
  In e (console ++ t) <-> In e t.
Proof.
  intros Hc He. rewrite in_app_iff. split; [|auto].
  intros [H|H]; [|exact H]. exfalso.
  rewrite forallb_forall in Hc. specialize (Hc e H). congruence.
Qed.

Lemma before_loop_console (console t : list event) :
  forallb is_console console = true ->
  before_loop (console ++ t) = console ++ before_loop t.
Proof.
  induction console as [|e c IH]; simpl; [reflexivity|].
  intros H. apply andb_true_iff in H. destruct H as [He Hc].
  rewrite (IH Hc). destruct e; try discriminate; reflexivity.
Qed.

(** X13. Before the network loop is entered no relay is switched on: the
    pin writes [main] makes up to its call of [mosquitto_loop_forever]
    (or up to its exit, when it does not get there) are HIGH to pins
    0, 1, ..., 15, once each and in this order, if [wiringPiSetup]
    returned 0, and there are none otherwise. *)
Theorem main_only_writes_high (w : world) (rc : Z) (st' : state) :
  main w initial_state = Ok (rc, st') ->
  pin_writes (before_loop (trace st'))
  = if (wiringPiSetup_rc w =? 0)%Z
    then map (fun i => (Z.of_nat i, HIGH)) (seq 0 16)
    else [].
Proof.
  intros Hmain.
  destruct (@main_trace w rc st' Hmain) as (console & -> & Hconsole).
  rewrite (@before_loop_console console _ Hconsole).
  rewrite pin_writes_app, (@pin_writes_console console Hconsole).
  unfold startup_events.
  destruct (wiringPiSetup_rc w =? 0)%Z, (mosquitto_new_ok w),
           (mosquitto_connect_rc w =? 0)%Z; reflexivity.
Qed.

Lemma main_only_writes_high_witness :
  exists rc st',
    main (sample_world None 0) initial_state = Ok (rc, st')
    /\ length (pin_writes (before_loop (trace st'))) = 16
    /\ Forall (fun pv => snd pv = HIGH)
              (pin_writes (before_loop (trace st'))).
Proof.
  destruct (main (sample_world None 0) initial_state) as [[rc st']|] eqn:E;
    [|vm_compute in E; discriminate].
  exists rc, st'. split; [reflexivity|].
  rewrite (@main_only_writes_high _ _ _ E). simpl.
  split; [reflexivity|]. repeat constructor.
Defined.

(** X14. The network loop is entered, and the library cleaned up, only on
    the way to exit status 0.  When the connect call fails the client is
    destroyed; on both error exits [mosquitto_lib_cleanup] is skipped. *)
Theorem main_loop_and_cleanup (w : world) (rc : Z) (st' : state) :
  main w initial_state = Ok (rc, st') ->
  (In MosquittoLoopForever (trace st') <-> rc = 0%Z)
  /\ (In MosquittoLibCleanup (trace st') <-> rc = 0%Z)
  /\ (In MosquittoDestroy (trace st')
      <-> mosquitto_new_ok w = true /\ mosquitto_connect_rc w <> 0%Z)
  /\ In MosquittoLibInit (trace st').
Proof.
  intros Hmain.
  assert (Hrc : rc = exit_status w).
  { revert Hmain. rewrite main_run.
    destruct (parseWorkingDir (argv0 w) initial_state) as [[[] st1]|];
      [|discriminate].
    destruct (displayHeader st1) as [[[] st2]|]; [|discriminate].
    destruct (readSettings w st2) as [[b st3]|]; [|discriminate].
    intros H. injection H as <- _. reflexivity. }
  destruct (@main_trace w rc st' Hmain) as (console & -> & Hconsole).
  rewrite !(@in_after_console console _ _ Hconsole) by reflexivity.
  subst rc. unfold exit_status, startup_events.
  destruct (wiringPiSetup_rc w =? 0)%Z, (mosquitto_new_ok w),
           (Z.eqb_spec (mosquitto_connect_rc w) 0);
    simpl; unfold gpio_events; simpl;
    repeat split; intros; try discriminate; try lia; try tauto;
    repeat match goal with
      | H : _ \/ _ |- _ => destruct H
      | H : _ /\ _ |- _ => destruct H
      end; try discriminate; try contradiction; try congruence; auto 50.
Qed.

Lemma main_loop_and_cleanup_witness :
  exists rc st',
    main {| argv0 := str "/home/pi/relay"; fopen := fun _ => None;
            wiringPiSetup_rc := 0; mosquitto_new_ok := true;
            mosquitto_connect_rc := 14 |} initial_state = Ok (rc, st')
    /\ In MosquittoDestroy (trace st')
    /\ ~ In MosquittoLibCleanup (trace st').
Proof.
  destruct (main {| argv0 := str "/home/pi/relay"; fopen := fun _ => None;
                    wiringPiSetup_rc := 0; mosquitto_new_ok := true;
                    mosquitto_connect_rc := 14 |} initial_state)
    as [[rc st']|] eqn:E; [|vm_compute in E; discriminate].
  exists rc, st'. split; [reflexivity|].
  destruct (@main_loop_and_cleanup _ _ _ E) as (_ & Hclean & Hdestroy & _).
  split.
  - apply Hdestroy. split; [reflexivity|discriminate].
  - intros H. apply Hclean in H. subst rc.
    vm_compute in E. discriminate.
Defined.

Lemma each_event_sound (f : list event -> event -> bool)
    (acc t pre post : list event) (e : event) :
  each_event f acc t = true ->
  t = pre ++ e :: post ->
  f (acc ++ pre) e = true.
Proof.
  revert acc pre. induction t as [|x t IH]; intros acc pre Hg Heq.
  - destruct pre; discriminate.
  - simpl in Hg. apply andb_true_iff in Hg. destruct Hg as [Hx Hg].
    destruct pre as [|y pre]; simpl in Heq; injection Heq as -> ->.
    + rewrite app_nil_r. exact Hx.
    + specialize (IH (acc ++ [y]) pre Hg eq_refl).
      rewrite <- app_assoc in IH. exact IH.
Qed.

Lemma ready_to_connect_after_console (console t : list event) :
  forallb is_console console = true ->
  ready_to_connect t = true -> ready_to_connect (console ++ t) = true.
Proof.
  intros Hc. unfold ready_to_connect. rewrite !existsb_app.
  assert (Hno : existsb is_connect console = false).
  { clear -Hc. induction console as [|e c IH]; simpl in *; auto.
    apply andb_true_iff in Hc. destruct Hc as [He Hc].
    rewrite (IH Hc). destruct e; try discriminate; reflexivity. }
  rewrite Hno. intros H.
  repeat (apply andb_true_iff in H; destruct H as [H ?]).
  repeat (apply andb_true_iff; split); auto;
    apply orb_true_iff; right; assumption.
Qed.

Lemma startup_connect_ready (w : world) (broker : list ascii) :
  each_event (fun pre e => if is_connect e then ready_to_connect pre
                           else true)
             [] (startup_events w broker) = true.
Proof.
  unfold startup_events.
  destruct (wiringPiSetup_rc w =? 0)%Z, (mosquitto_new_ok w),
           (mosquitto_connect_rc w =? 0)%Z; vm_compute; reflexivity.
Qed.

(** X15. The connect made by [main] goes to the broker that settings
    resolution left in [g_Broker], on port 1883 with keepalive 60; it is
    made at most once, after the three callbacks have been registered, and
    only if the client could be created. *)
Theorem main_connects_to_resolved_broker (w : world) (rc : Z) (st' : state)
    (pre post : list event) (host : list ascii) (port keepalive : Z) :
  main w initial_state = Ok (rc, st') ->
  trace st' = pre ++ MosquittoConnect host port keepalive :: post ->
  host = g_Broker st' /\ port = 1883%Z /\ keepalive = 60%Z
  /\ mosquitto_new_ok w = true
  /\ In (MosquittoCallbackSet CbConnect) pre
  /\ In (MosquittoCallbackSet CbSubscribe) pre
  /\ In (MosquittoCallbackSet CbMessage) pre
  /\ existsb is_connect pre = false.
Proof.
  intros Hmain Hsplit.
  destruct (@main_trace w rc st' Hmain) as (console & Htrace & Hconsole).
  rewrite Htrace in Hsplit.
  destruct (@split_after_console console _ pre post
              (MosquittoConnect host port keepalive) Hconsole eq_refl Hsplit)
    as (pre' & -> & Htail).
  assert (Hin : In (MosquittoConnect host port keepalive)
                   (startup_events w (g_Broker st'))).
  { rewrite Htail. apply in_or_app. right. left. reflexivity. }
  assert (Hfacts : host = g_Broker st' /\ port = 1883%Z /\ keepalive = 60%Z
                   /\ mosquitto_new_ok w = true).
  { revert Hin. unfold startup_events, gpio_events.
    destruct (wiringPiSetup_rc w =? 0)%Z, (mosquitto_new_ok w),
             (mosquitto_connect_rc w =? 0)%Z; simpl;
      intros H;
      repeat match goal with
        | H : _ \/ _ |- _ => destruct H as [H|H]
        end; try discriminate H; try contradiction;
      injection H as <- <- <-; auto. }
  pose proof (@each_event_sound _ [] _ pre' post _
                (startup_connect_ready w (g_Broker st')) Htail) as Hready.
  cbn [is_connect app] in Hready.
  apply (@ready_to_connect_after_console console _ Hconsole) in Hready.
  unfold ready_to_connect in Hready.
  repeat (apply andb_true_iff in Hready; destruct Hready as [Hready ?]).
  assert (Hcb : forall cb, existsb (is_callback_set cb) (console ++ pre')
                           = true ->
                           In (MosquittoCallbackSet cb) (console ++ pre')).
  { intros cb Hex. apply existsb_exists in Hex.
    destruct Hex as (x & Hx & Hcbx).
    destruct x; try (destruct cb; discriminate).
    destruct cb, cb0; try discriminate; exact Hx. }
  destruct Hfacts as (? & ? & ? & ?).
  repeat split; auto.
  apply negb_true_iff. assumption.
Qed.

Lemma main_connects_to_resolved_broker_witness :
  exists rc st' pre post,
    main (sample_world (Some (str "BROKER 10.0.0.5" ++ [LF])) 0)
         initial_state = Ok (rc, st')
    /\ trace st' = pre ++ MosquittoConnect (str "10.0.0.5") 1883 60 :: post
    /\ g_Broker st' = str "10.0.0.5"
    /\ In (MosquittoCallbackSet CbMessage) pre.
Proof.
  destruct (main (sample_world (Some (str "BROKER 10.0.0.5" ++ [LF])) 0)
                 initial_state) as [[rc st']|] eqn:Hmain;
    [|vm_compute in Hmain; discriminate].
  assert (Hsplit : trace st'
                   = firstn 43 (trace st')
                     ++ MosquittoConnect (str "10.0.0.5") 1883 60
                     :: skipn 44 (trace st')).
  { vm_compute in Hmain. injection Hmain as _ <-. reflexivity. }
  exists rc, st', (firstn 43 (trace st')), (skipn 44 (trace st')).
  split; [reflexivity|]. split; [exact Hsplit|].
  destruct (@main_connects_to_resolved_broker _ _ _ _ _ _ _ _ Hmain Hsplit)
    as (Hhost & _ & _ & _ & _ & _ & Hmsg & _).
  split; [symmetry; exact Hhost | exact Hmsg].
Defined.

(** ** More on the settings reader *)

Lemma streq_eq (a b : list ascii) : streq a b = true <-> a = b.
Proof.
  revert b. induction a as [|x a IH]; intros [|y b]; simpl;
    try (split; [discriminate|discriminate]); [tauto|].
  rewrite andb_true_iff, Ascii.eqb_eq, IH.
  split; [intros [-> ->]; reflexivity | intros H; injection H; auto].
Qed.

Lemma spaces_no_nul (s : list ascii) :
  Forall (eq " "%char) s -> Forall (fun c => c <> NUL) s.
Proof.
  intros H. eapply Forall_impl; [|exact H]. intros a <-. discriminate.
Qed.

Lemma word_no_nul (s : list ascii) :
  Forall (fun c => c <> " "%char /\ c <> NUL) s ->
  Forall (fun c => c <> NUL) s.
Proof.
  intros H. eapply Forall_impl; [|exact H]. intros a [_ Ha]. exact Ha.
Qed.

Lemma scan_token_rest (rest : list ascii) :
  rest = [] \/ (exists t, rest = " "%char :: t) ->
  scan_token (str " ") rest = ([], tl rest).
Proof.
  intros [-> | (t & ->)]; reflexivity.
Qed.

(** The first word of a line and the position saved after it. *)
Lemma strtok_first_word (lead tok rest : list ascii) :
  Forall (eq " "%char) lead ->
  is_word tok ->
  rest = [] \/ (exists t, rest = " "%char :: t) ->
  strtok (lead ++ tok ++ rest) (str " ") = Some (tok, tl rest).
Proof.
  intros Hlead [Hne Htok] Hrest. unfold strtok.
  rewrite skip_delims_spaces by assumption.
  destruct tok as [|c tok]; [contradiction|].
  cbn [app]. rewrite skip_delims_word by (inversion Htok; tauto).
  change (c :: tok ++ rest) with ((c :: tok) ++ rest).
  rewrite scan_token_app by assumption.
  rewrite scan_token_rest by assumption. cbn [fst snd].
  rewrite app_nil_r. reflexivity.
Qed.

(** What the loop body does with a line that starts (after spaces) with a
    word. *)
Lemma apply_line_first_word (lead tok rest : list ascii) (st : state) :
  Forall (eq " "%char) lead ->
  is_word tok ->
  is_rest_of_line rest ->
  apply_line (lead ++ tok ++ rest) st =
  if Ascii.eqb (hd NUL (lead ++ tok)) "#" then Ok (tt, st)
  else if streq (map toupper tok) (str "TOPIC") then
         match strtok (tl rest) (str " ") with
         | Some (value, _) => strcpy_into set_Topic value st
         | None => Ok (tt, st)
         end
  else if streq (map toupper tok) (str "BROKER") then
         match strtok (tl rest) (str " ") with
         | Some (value, _) => strcpy_into set_Broker value st
         | None => Ok (tt, st)
         end
  else Ok (tt, st).
Proof.
  intros Hlead Hword [Hnul Hrest]. unfold apply_line.
  assert (Hnonul : Forall (fun c => c <> NUL) (lead ++ tok ++ rest)).
  { rewrite !Forall_app. destruct Hword as [_ Htok].
    auto using spaces_no_nul, word_no_nul. }
  assert (Hhd : hd NUL (lead ++ tok ++ rest) = hd NUL (lead ++ tok)).
  { destruct lead; [|reflexivity]. destruct Hword as [Hne _].
    destruct tok; [contradiction|reflexivity]. }
  assert (Hlen : (0 <? strlen (lead ++ tok ++ rest)) = true).
  { unfold strlen. rewrite c_str_no_nul by assumption.
    apply Nat.ltb_lt. rewrite !length_app. destruct Hword as [Hne _].
    destruct tok; [contradiction|simpl; lia]. }
  rewrite Hlen, Hhd, strtok_first_word by assumption.
  destruct (Ascii.eqb (hd NUL (lead ++ tok)) "#"); cbn [negb];
    [reflexivity|].
  destruct (streq (map toupper tok) (str "TOPIC")).
  - destruct (strtok (tl rest) (str " ")) as [[v ?]|]; reflexivity.
  - destruct (streq (map toupper tok) (str "BROKER")); [|reflexivity].
    destruct (strtok (tl rest) (str " ")) as [[v ?]|]; reflexivity.
Qed.

Lemma label_not_comment (lead tok : list ascii) (topic : bool) :
  Forall (eq " "%char) lead ->
  map toupper tok = label_name topic ->
  Ascii.eqb (hd NUL (lead ++ tok)) "#" = false.
Proof.
  intros Hlead Htok. apply Ascii.eqb_neq.
  destruct Hlead as [|x lead <- _]; [|discriminate].
  destruct tok as [|c tok]; [destruct topic; discriminate|].
  simpl. intros ->. destruct topic; discriminate.
Qed.

(** A line "label spaces value ..." stores the value. *)
Lemma apply_line_label_value (topic : bool)
    (lead tok sep v rest : list ascii) (st : state) :
  Forall (eq " "%char) lead ->
  is_word tok ->
  map toupper tok = label_name topic ->
  only_spaces sep ->
  is_word v ->
  is_rest_of_line rest ->
  apply_line (lead ++ tok ++ sep ++ v ++ rest) st
  = strcpy_into (setter topic) v st.
Proof.
  intros Hlead Htok Hlabel [Hsep_ne Hsep] Hv [Hrest_nul Hrest].
  destruct sep as [|x sep']; [contradiction|].
  inversion Hsep as [|? ? <- Hsep']; subst.
  rewrite apply_line_first_word; try assumption.
  - rewrite (@label_not_comment lead tok topic Hlead Hlabel), Hlabel.
    cbn [tl app].
    rewrite (@strtok_first_word sep' v rest Hsep' Hv Hrest).
    destruct topic; reflexivity.
  - split.
    + rewrite !Forall_app. destruct Hv as [_ Hv].
      repeat split; auto using spaces_no_nul, word_no_nul.
    + right. eexists. reflexivity.
Qed.

(** The loop over a file that holds one setting line between a text that
    ends in a line feed and lines that name no value. *)
Lemma read_setting_line (topic : bool) (pre line v : list ascii)
    (lines : list (list ascii)) (st st1 : state) :
  pre = [] \/ ends_with_LF pre ->
  read_lines pre st = Ok (tt, st1) ->
  apply_line line st1 = strcpy_into (setter topic) v st1 ->
  short_line line ->
  length v < BUFFSIZE ->
  Forall valueless_line lines ->
  Forall (fun l => ~ In LF l /\ length l + 1 < BUFFSIZE) lines ->
  read_lines (pre ++ (line ++ [LF]) ++ file_of_lines lines) st
  = Ok (tt, setter topic v st1).
Proof.
  intros Hpre Hrun Happly (Hlf & Hlen & Hnul) Hv Hval Hshape.
  rewrite read_lines_app, Hrun by assumption.
  rewrite read_lines_cons by assumption.
  rewrite process_line_terminated, Happly by (assumption || discriminate).
  unfold strcpy_into. apply Nat.ltb_lt in Hv. rewrite Hv.
  apply read_lines_valueless; assumption.
Qed.

(** X16. The grammar of a setting line, for a line without NUL that has
    at most 48 characters and is closed by a line feed: optional spaces,
    the label in any mix of upper and lower case, one or more spaces, and
    the value, which is the next word in full; whatever follows the value
    on the line is ignored.  Lines after it that name no value (as in C5)
    leave the stored value in place. *)
Theorem setting_line_stored (w : world) (st st1 : state) (topic : bool)
    (pre lead tok sep v rest : list ascii) (lines : list (list ascii)) :
  length (settings_path st) < BUFFSIZE ->
  fopen w (settings_path st)
    = Some (pre ++ ((lead ++ tok ++ sep ++ v ++ rest) ++ [LF])
                ++ file_of_lines lines) ->
  pre = [] \/ ends_with_LF pre ->
  read_lines pre st = Ok (tt, st1) ->
  Forall (eq " "%char) lead ->
  is_word tok ->
  map toupper tok = label_name topic ->
  only_spaces sep ->
  is_word v ->
  is_rest_of_line rest ->
  ~ In LF (lead ++ tok ++ sep ++ v ++ rest) ->
  length (lead ++ tok ++ sep ++ v ++ rest) + 1 < BUFFSIZE ->
  Forall valueless_line lines ->
  Forall (fun l => ~ In LF l /\ length l + 1 < BUFFSIZE) lines ->
  exists st',
    readSettings w st = Ok (true, st')
    /\ field topic st' = v
    /\ field (negb topic) st' = field (negb topic) st1.
Proof.
  intros Hfit Hopen Hpre Hrun Hlead Htok Hlabel Hsep Hv Hrest Hlf Hlen
         Hval Hshape.
  rewrite (readSettings_opens w st Hfit Hopen).
  rewrite (@read_setting_line topic pre _ v lines st st1); try assumption.
  - eexists. split; [reflexivity|]. destruct topic; split; reflexivity.
  - apply apply_line_label_value; assumption.
  - split; [assumption|]. split; [assumption|].
    destruct Htok as [_ Htok]. destruct Hv as [_ Hv'].
    destruct Hsep as [_ Hsep]. destruct Hrest as [Hrest _].
    rewrite !Forall_app.
    repeat split; auto using spaces_no_nul, word_no_nul.
  - rewrite !length_app in Hlen. lia.
Qed.

Lemma setting_line_stored_witness :
  exists st',
    readSettings
      (sample_world
         (Some ([] ++ ((str "  " ++ str "Topic" ++ str "   "
                          ++ str "office/relays" ++ str " # main") ++ [LF])
                   ++ file_of_lines [str "# end"; []])) 0)
      (set_WorkingDir (str "/home/pi/") initial_state) = Ok (true, st')
    /\ g_Topic st' = str "office/relays".
Proof.
  destruct (@setting_line_stored
              (sample_world
                 (Some ([] ++ ((str "  " ++ str "Topic" ++ str "   "
                                  ++ str "office/relays" ++ str " # main")
                                 ++ [LF])
                           ++ file_of_lines [str "# end"; []])) 0)
              (set_WorkingDir (str "/home/pi/") initial_state)
              (set_WorkingDir (str "/home/pi/") initial_state)
              true [] (str "  ") (str "Topic") (str "   ")
              (str "office/relays") (str " # main") [str "# end"; []])
    as (st' & Hrun & Hv & _).
  - vm_compute. lia.
  - reflexivity.
  - left. reflexivity.
  - vm_compute. reflexivity.
  - repeat constructor.
  - split; [discriminate|]. repeat constructor; discriminate.
  - reflexivity.
  - split; [discriminate|]. repeat constructor.
  - split; [discriminate|]. repeat constructor; discriminate.
  - split; [repeat constructor; discriminate|].
    right. eexists. reflexivity.
  - simpl. intros H. repeat destruct H as [H|H]; try discriminate H.
    contradiction.
  - vm_compute. lia.
  - repeat constructor.
  - repeat constructor; try (vm_compute; lia).
    all: simpl; intros H; repeat destruct H as [H|H]; try discriminate H;
      contradiction.
  - exists st'. split; assumption.
Defined.

(** X17. A line made of the upper-case label, one space and a word, with
    a carriage return right after the word and then the line feed, the
    whole having at most 48 characters before the line feed, keeps the
    carriage return: the value stored is the word followed by CR. *)
Theorem crlf_line_keeps_carriage_return (w : world) (st st1 : state)
    (topic : bool) (pre v : list ascii) (lines : list (list ascii)) :
  length (settings_path st) < BUFFSIZE ->
  fopen w (settings_path st)
    = Some (pre ++ ((label_text topic ++ v ++ [CR]) ++ [LF])
                ++ file_of_lines lines) ->
  pre = [] \/ ends_with_LF pre ->
  read_lines pre st = Ok (tt, st1) ->
  Forall (fun c => c <> " "%char /\ c <> NUL) v ->
  ~ In LF v ->
  length (label_text topic ++ v ++ [CR]) + 1 < BUFFSIZE ->
  Forall valueless_line lines ->
  Forall (fun l => ~ In LF l /\ length l + 1 < BUFFSIZE) lines ->
  exists st',
    readSettings w st = Ok (true, st') /\ field topic st' = v ++ [CR].
Proof.
  intros Hfit Hopen Hpre Hrun Hv Hlf Hlen Hval Hshape.
  assert (Hword : Forall (fun c => c <> " "%char /\ c <> NUL) (v ++ [CR])).
  { apply Forall_app. split; [assumption|].
    repeat constructor; discriminate. }
  rewrite (readSettings_opens w st Hfit Hopen).
  rewrite (@read_setting_line topic pre _ (v ++ [CR]) lines st st1);
    try assumption.
  - eexists. split; [reflexivity|]. destruct topic; reflexivity.
  - rewrite apply_line_setting; [destruct topic; reflexivity | | assumption].
    destruct v; discriminate.
  - split; [|split; [assumption|]].
    + intros H. apply in_app_or in H. destruct H as [H|H].
      * destruct topic; simpl in H;
          repeat destruct H as [H|H]; try discriminate H; contradiction.
      * apply in_app_or in H. destruct H as [H|[H|[]]];
          [contradiction|discriminate H].
    + apply Forall_app. split.
      * destruct topic; repeat constructor; discriminate.
      * apply word_no_nul. assumption.
  - rewrite !length_app in Hlen. rewrite length_app. simpl in *. lia.
Qed.

Lemma crlf_line_keeps_carriage_return_witness :
  exists st',
    readSettings
      (sample_world
         (Some ([] ++ ((label_text false ++ str "10.0.0.5" ++ [CR]) ++ [LF])
                   ++ file_of_lines [])) 0)
      (set_WorkingDir (str "/home/pi/") initial_state) = Ok (true, st')
    /\ g_Broker st' = str "10.0.0.5" ++ [CR].
Proof.
  apply (@crlf_line_keeps_carriage_return
           (sample_world
              (Some ([] ++ ((label_text false ++ str "10.0.0.5" ++ [CR])
                              ++ [LF])
                        ++ file_of_lines [])) 0)
           (set_WorkingDir (str "/home/pi/") initial_state)
           (set_WorkingDir (str "/home/pi/") initial_state)
           false [] (str "10.0.0.5") []).
  - vm_compute. lia.
  - reflexivity.
  - left. reflexivity.
  - vm_compute. reflexivity.
  - repeat constructor; discriminate.
  - simpl. intros H. repeat destruct H as [H|H]; try discriminate H.
    contradiction.
  - vm_compute. lia.
  - constructor.
  - constructor.
Defined.

(** X18. A line without NUL and of at most 48 characters whose first word
    is neither TOPIC nor BROKER (in any case) is skipped whatever follows
    that word on the line: taking the line out of the file does not change
    what the loop does. *)
Theorem unrecognised_label_ignored (pre lead tok rest post : list ascii)
    (st : state) :
  pre = [] \/ ends_with_LF pre ->
  Forall (eq " "%char) lead ->
  is_word tok ->
  is_rest_of_line rest ->
  map toupper tok <> str "TOPIC" ->
  map toupper tok <> str "BROKER" ->
  ~ In LF (lead ++ tok ++ rest) ->
  length (lead ++ tok ++ rest) + 1 < BUFFSIZE ->
  read_lines (pre ++ ((lead ++ tok ++ rest) ++ [LF]) ++ post) st
  = read_lines (pre ++ post) st.
Proof.
  intros Hpre Hlead Htok Hrest Ht Hb Hlf Hlen.
  rewrite !read_lines_app by assumption.
  destruct (read_lines pre st) as [[[] st1]|]; [|reflexivity].
  rewrite read_lines_cons by assumption.
  rewrite process_line_terminated.
  - rewrite apply_line_first_word by assumption.
    destruct (Ascii.eqb _ "#"); [reflexivity|].
    replace (streq (map toupper tok) (str "TOPIC")) with false.
    + replace (streq (map toupper tok) (str "BROKER")) with false;
        [reflexivity|].
      symmetry. apply not_true_is_false. rewrite streq_eq. assumption.
    + symmetry. apply not_true_is_false. rewrite streq_eq. assumption.
  - destruct Htok as [_ Htok]. destruct Hrest as [Hrest _].
    rewrite !Forall_app. auto using spaces_no_nul, word_no_nul.
  - discriminate.
Qed.

Lemma unrecognised_label_ignored_witness :
  read_lines ((str "TOPIC a" ++ [LF])
                ++ ((str " " ++ str "port" ++ str " 1883") ++ [LF])
                ++ str "BROKER b" ++ [LF]) initial_state
  = read_lines ((str "TOPIC a" ++ [LF]) ++ str "BROKER b" ++ [LF])
               initial_state.
Proof.
  apply (@unrecognised_label_ignored (str "TOPIC a" ++ [LF]) (str " ")
           (str "port") (str " 1883") (str "BROKER b" ++ [LF])
           initial_state).
  - right. exists (str "TOPIC a"). reflexivity.
  - repeat constructor.
  - split; [discriminate|]. repeat constructor; discriminate.
  - split; [repeat constructor; discriminate|].
    right. eexists. reflexivity.
  - discriminate.
  - discriminate.
  - simpl. intros H. repeat destruct H as [H|H]; try discriminate H.
    contradiction.
  - vm_compute. lia.
Defined.









Lemma fgets_chars_full (l rest : list ascii) :
  ~ In LF l -> fgets_chars (length l) (l ++ rest) = (l, rest).
Proof.
  induction l as [|c l IH]; intros Hin; [reflexivity|].
  cbn [length app fgets_chars].
  replace (Ascii.eqb c LF) with false.
  - rewrite IH; [reflexivity|]. intros H. apply Hin. right. exact H.
  - symmetry. apply Ascii.eqb_neq. intros ->. apply Hin. left. reflexivity.
Qed.

Lemma process_line_comment (body : list ascii) (st : state) :
  process_line ("#"%char :: body) st = Ok (tt, st).
Proof.
  unfold process_line. cbn [c_str].
  change (Ascii.eqb "#" NUL) with false. cbv beta match.
  destruct (c_str body) as [|y x]; [reflexivity|].
  change (removelast ("#"%char :: y :: x))
    with ("#"%char :: removelast (y :: x)).
  apply apply_line_valueless. constructor.
Qed.

(** X20. A line longer than the buffer is not read as one line: its first
    49 characters are handled as a line of their own (losing the 49th),
    and what follows is handled as the next line.  In particular the part
    of a long comment beyond its 49th character is not a comment any
    more. *)
Theorem long_line_is_split (chunk rest : list ascii) (st : state) :
  length chunk = BUFFSIZE - 1 ->
  ~ In LF chunk ->
  read_lines (chunk ++ rest) st
  = match process_line chunk st with
    | Ok (_, st') => read_lines rest st'
    | Undefined => Undefined
    end
  /\ (hd NUL chunk = "#"%char ->
      read_lines (chunk ++ rest) st = read_lines rest st).
Proof.
  intros Hlen Hlf.
  assert (Hstep : read_lines (chunk ++ rest) st
                  = match process_line chunk st with
                    | Ok (_, st') => read_lines rest st'
                    | Undefined => Undefined
                    end).
  { rewrite read_lines_step. unfold fgets.
    destruct chunk as [|c chunk]; [discriminate|].
    cbn [app]. change (c :: chunk ++ rest) with ((c :: chunk) ++ rest).
    rewrite <- Hlen, fgets_chars_full by assumption. reflexivity. }
  split; [exact Hstep|].
  intros Hhd. rewrite Hstep.
  destruct chunk as [|c chunk]; [discriminate|].
  simpl in Hhd. subst c. rewrite process_line_comment. reflexivity.
Qed.

Lemma long_line_is_split_witness :
  resolved
    (read_lines
       (str
          "# the topic below is for the staging test table: TOPIC staging"
          ++ [LF]) initial_state)
  = Some (tt, ([], str "staging")).
Proof.
  change (str
            "# the topic below is for the staging test table: TOPIC staging"
            ++ [LF])
    with (str "# the topic below is for the staging test table: "
            ++ (str "TOPIC staging" ++ [LF])).
  rewrite (proj2 (@long_line_is_split
                    (str "# the topic below is for the staging test table: ")
                    (str "TOPIC staging" ++ [LF]) initial_state
                    eq_refl
                    ltac:(simpl; intros H;
                          repeat destruct H as [H|H];
                          try discriminate H; contradiction))
                 eq_refl).
  vm_compute. reflexivity.
Defined.

(** X21. When [readSettings] completes it has printed, last, the topic and
    the broker that are in force afterwards; all it does to the outside is
    print; [g_WorkingDir] is untouched; and its result is true exactly
    when the file could be opened, whether or not the file set
    anything. *)
Theorem readSettings_reports_outcome (w : world) (st st' : state)
    (b : bool) :
  readSettings w st = Ok (b, st') ->
  (exists msgs,
      trace st' = trace st ++ msgs
                    ++ [Printf "TOPIC: %s\n" [ArgStr (g_Topic st')];
                        Printf "BROKER: %s\n\n" [ArgStr (g_Broker st')]]
      /\ forallb is_console msgs = true)
  /\ g_WorkingDir st' = g_WorkingDir st
  /\ (b = true <-> fopen w (settings_path st) <> None).
Proof.
  destruct (le_lt_dec BUFFSIZE (length (settings_path st))) as [Hlong|Hfit].
  { rewrite readSettings_path_too_long by assumption. discriminate. }
  destruct (fopen w (settings_path st)) as [stream|] eqn:Hopen.
  - rewrite (readSettings_opens w st Hfit Hopen).
    destruct (read_lines_uniform stream) as [Hu | (t & tb & Hrun)].
    + rewrite Hu. discriminate.
    + rewrite Hrun. intros E. injection E as <- <-. simpl.
      split; [exists []; split; reflexivity|].
      split; [reflexivity|]. split; [discriminate|reflexivity].
  - rewrite (readSettings_open_fails w st Hfit Hopen).
    intros E. injection E as <- <-. simpl.
    split; [eexists [_]; split; reflexivity|].
    split; [reflexivity|]. split; [discriminate|]. intros H. contradiction.
Qed.

Lemma readSettings_reports_outcome_witness :
  exists st',
    readSettings (sample_world (Some (str "# nothing" ++ [LF])) 0)
                 (set_WorkingDir (str "/home/pi/") initial_state)
      = Ok (true, st')
    /\ g_WorkingDir st' = str "/home/pi/".
Proof.
  destruct (readSettings (sample_world (Some (str "# nothing" ++ [LF])) 0)
              (set_WorkingDir (str "/home/pi/") initial_state))
    as [[b st']|] eqn:E; [|vm_compute in E; discriminate].
  destruct (@readSettings_reports_outcome _ _ _ _ E) as (_ & Hdir & Hb).
  exists st'. split; [|exact Hdir].
  f_equal. f_equal. apply Hb. discriminate.
Defined.

Lemma startup_configures_before_writing (w : world) (broker : list ascii) :
  each_event (fun pre e =>
                match e with
                | DigitalWrite p _ =>
                    match last_mode p pre, last_level p pre with
                    | Some OUTPUT, None => true
                    | _, _ => false
                    end
                | _ => true
                end)
             [] (startup_events w broker) = true.
Proof.
  unfold startup_events.
  destruct (wiringPiSetup_rc w =? 0)%Z, (mosquitto_new_ok w),
           (mosquitto_connect_rc w =? 0)%Z; vm_compute; reflexivity.
Qed.

(** X22. Before the network loop is entered a pin is written only after
    it has been configured as an output, and each pin is written once: at
    every pin write [main] makes before its call of
    [mosquitto_loop_forever], the pin's mode is OUTPUT and the pin has not
    been written before. *)
Theorem main_configures_before_writing (w : world) (rc : Z) (st' : state)
    (pre post : list event) (pin : Z) (value : level) :
  main w initial_state = Ok (rc, st') ->
  trace st' = pre ++ DigitalWrite pin value :: post ->
  existsb is_loop pre = false ->
  last_mode pin pre = Some OUTPUT /\ last_level pin pre = None.
Proof.
  intros Hmain Hsplit _.
  destruct (@main_trace w rc st' Hmain) as (console & Htrace & Hconsole).
  rewrite Htrace in Hsplit.
  destruct (@split_after_console console _ pre post
              (DigitalWrite pin value) Hconsole eq_refl Hsplit)
    as (pre' & -> & Htail).
  pose proof (@each_event_sound _ [] _ pre' post _
                (startup_configures_before_writing w (g_Broker st'))
                Htail) as Hok.
  cbn [app] in Hok.
  rewrite last_mode_app, last_level_app.
  rewrite (@last_level_console pin console Hconsole).
  destruct (last_mode pin pre') as [[]|]; try discriminate.
  destruct (last_level pin pre'); try discriminate.
  split; reflexivity.
Qed.

Lemma main_configures_before_writing_witness :
  exists rc st' pre post,
    main (sample_world None 0) initial_state = Ok (rc, st')
    /\ trace st' = pre ++ DigitalWrite 3 HIGH :: post
    /\ existsb is_loop pre = false
    /\ last_mode 3 pre = Some OUTPUT.
Proof.
  destruct (main (sample_world None 0) initial_state) as [[rc st']|] eqn:Hmain;
    [|vm_compute in Hmain; discriminate].
  assert (Hsplit : trace st'
                   = firstn 14 (trace st') ++ DigitalWrite 3 HIGH
                     :: skipn 15 (trace st')).
  { vm_compute in Hmain. injection Hmain as _ <-. reflexivity. }
  assert (Hloop : existsb is_loop (firstn 14 (trace st')) = false).
  { vm_compute in Hmain. injection Hmain as _ <-. reflexivity. }
  exists rc, st', (firstn 14 (trace st')), (skipn 15 (trace st')).
  split; [reflexivity|]. split; [exact Hsplit|]. split; [exact Hloop|].
  exact (proj1 (@main_configures_before_writing _ _ _ _ _ _ _
                  Hmain Hsplit Hloop)).
Defined.
